(** * DVID data source: credentialed transport, merge-graph resolver and
      fragment decoder

    A shallow embedding of
    - [src/neuroglancer/datasource/dvid/api.ts]
      ([applyCredentials], [makeRequestWithCredentials],
      [fetchWithDVIDCredentials]), and
    - [src/neuroglancer/datasource/dvid/backend.ts]
      ([decodeFragmentChunk], [decodeFragmentChunkM],
      [DVIDMeshSource.downloadMergeFragment],
      [DVIDMeshSource.downloadFragment]).

    Promises that are awaited one after the other are modelled by a state
    and exception monad over an abstract network; JavaScript objects used
    as maps are [gmap]s; array buffers are lists of bytes. *)

From Stdlib Require Import ZArith String List Lia.
From Stdlib.Strings Require Import Byte.
From stdpp Require Import base option list gmap strings pretty.

Open Scope string_scope.
Open Scope Z_scope.

(* ================================================================== *)
(** * Values thrown by the code and by its collaborators *)

(** What a rejected promise or a [throw] can carry.  [HttpError] is the
    error of [neuroglancer/util/http_request] with its [status] field;
    [CANCELED] is the rejection produced when the cancellation token
    fires; the others are the built-in JavaScript errors the code can
    raise. *)
Inductive exn : Type :=
  | HttpError (status : Z)
  | CANCELED
  | TypeError (msg : string)
  | RangeError (msg : string)
  | Error (msg : string).

#[global] Instance exn_eq_dec : EqDecision exn.
Proof. solve_decision. Defined.

(** How an awaited promise ends.  [OutOfFuel] belongs to the model only:
    it marks a run cut short by the bound put on loops and recursion that
    the code leaves unbounded; no handler of the code can observe it. *)
Inductive outcome (T : Type) : Type :=
  | OutOfFuel
  | Resolved (v : T)
  | Rejected (e : exn).
Arguments OutOfFuel {T}.
Arguments Resolved {T} v.
Arguments Rejected {T} e.

(** Synchronous code that may throw. *)
Definition result (A : Type) : Type := exn + A.

Definition rbind {A B} (r : result A) (k : A → result B) : result B :=
  match r with
  | inl e => inl e
  | inr a => k a
  end.

Fixpoint rmapM {A B} (f : A → result B) (xs : list A) : result (list B) :=
  match xs with
  | [] => inr []
  | x :: xs' =>
      rbind (f x) (λ y, rbind (rmapM f xs') (λ ys, inr (y :: ys)))
  end.

(* ================================================================== *)
(** * api.ts: credentialed transport *)

Module Transport.

(** [RequestInit], restricted to the fields the file touches.  An absent
    field is [None]; [headers] is a plain object used as a map. *)
Record RequestInit : Type := mkInit {
  method : option string;
  body : option string;
  headers : option (gmap string string);
  credentials : option string
}.

(** [HttpCall & {responseType}] *)
Inductive responseType : Type := RtText | RtJson | RtArrayBuffer.

Record HttpCall : Type := mkCall {
  call_method : string;
  url : string;
  payload : option string;
  call_responseType : responseType
}.

(** The [init] that [makeRequestWithCredentials] hands to
    [fetchWithDVIDCredentials]:
    [{ method: httpCall.method, body: httpCall.payload }]. *)
Definition initOfCall (c : HttpCall) : RequestInit :=
  {| method := Some (call_method c);
     body := payload c;
     headers := None;
     credentials := None |}.

(** [{ ...newInit.headers, Authorization: v }]: spreading an absent
    object contributes no property. *)
Definition spreadHeaders (h : option (gmap string string)) : gmap string string :=
  default ∅ h.

(** [applyCredentials(input)(credentials, init)], api.ts lines 147-162. *)
Definition applyCredentials (input : string) (creds : string) (init : RequestInit)
  : RequestInit :=
  let newInit := init in
  if String.prefix "https" input then
    if (0 <? String.length creds)%nat then
      {| method := method newInit;
         body := body newInit;
         headers := Some (<["Authorization" := "Bearer " ++ creds]>
                            (spreadHeaders (headers newInit)));
         credentials := credentials newInit |}
    else
      {| method := method newInit;
         body := body newInit;
         headers := headers newInit;
         credentials := Some "include" |}
  else newInit.

(** The two credential-attachment modes of an outgoing request. *)
Definition authorization (r : RequestInit) : option string :=
  headers r ≫= (λ h, h !! "Authorization").

Definition carriesBearer (r : RequestInit) : bool :=
  bool_decide (is_Some (authorization r)).

Definition ambientCookies (r : RequestInit) : bool :=
  bool_decide (credentials r = Some "include").

(** ** The error handler of [fetchWithDVIDCredentials] *)

(** What the arrow function passed as [errorHandler] does with an
    [HttpError]: it returns one of the two strings or rethrows. *)
Inductive handled : Type :=
  | Returns (action : string)
  | Rethrows (status : Z).

(** api.ts lines 173-184. *)
Definition errorHandler (status : Z) : handled :=
  if (status =? 403) || (status =? 401) then Returns "refresh"
  else if status =? 504 then Returns "retry"
  else Rethrows status.

(** ** The retry driver *)

(** Events a transport call leaves behind, oldest first. *)
Inductive event : Type :=
  | EvGet
  | EvRefresh
  | EvAttempt (input : string) (init : RequestInit).

Definition isRefresh (ev : event) : bool :=
  match ev with EvRefresh => true | _ => false end.

Definition isAttempt (ev : event) : bool :=
  match ev with EvAttempt _ _ => true | _ => false end.

Section Driver.
(** The collaborators: the network behind [cancellableFetchOk] and the
    credential provider, both with their own state. *)
Context {Net Prov T : Type}.
Variable cancellableFetchOk : Net → string → RequestInit → (exn + T) * Net.
Variable provider_get : Prov → string * Prov.
Variable provider_refresh : Prov → string * Prov.

Record state : Type := mkState {
    net : Net;
    prov : Prov;
    trace : list event
  }.

Definition emit (ev : event) (s : state) : state :=
  {| net := net s; prov := prov s; trace := (trace s ++ [ev])%list |}.

(** One attempt: apply the credentials, issue the call. *)
Definition attempt (applyCreds : string → RequestInit → RequestInit)
    (input : string) (init : RequestInit) (creds : string)
    (s : state) : (exn + T) * state :=
  let sent := applyCreds creds init in
  let '(r, n) := cancellableFetchOk (net s) input sent in
  (r, emit (EvAttempt input sent)
        {| net := n; prov := prov s; trace := trace s |}).

Definition refreshCredentials (s : state) : string * state :=
  let '(c, p) := provider_refresh (prov s) in
  (c, emit EvRefresh {| net := net s; prov := p; trace := trace s |}).

Definition getCredentials (s : state) : string * state :=
  let '(c, p) := provider_get (prov s) in
  (c, emit EvGet {| net := net s; prov := p; trace := trace s |}).

(** Modelled from the spec: [fetchWithCredentials] of
    [neuroglancer/credentials_provider/http_request], which is not under
    src/.  Section 4.1: when the handler answers [refresh] the provider
    refreshes its token and the same call is attempted again once
    refreshed; when it answers [retry] the same call is attempted again
    without refreshing; an error the handler rethrows, and any error that
    is not a failure response, goes to the caller.  The code puts no bound
    on the number of attempts, hence the fuel. *)
Fixpoint requestLoop (applyCreds : string → RequestInit → RequestInit)
    (handler : Z → handled) (fuel : nat) (input : string)
    (init : RequestInit) (creds : string) (s : state) : outcome T * state :=
  match fuel with
  | O => (OutOfFuel, s)
  | S fuel' =>
      match attempt applyCreds input init creds s with
      | (inl (HttpError status), s1) =>
          match handler status with
          | Returns action =>
              if String.eqb action "refresh" then
                let '(creds', s2) := refreshCredentials s1 in
                requestLoop applyCreds handler fuel' input init creds' s2
              else requestLoop applyCreds handler fuel' input init creds s1
          | Rethrows st => (Rejected (HttpError st), s1)
          end
      | (inl e, s1) => (Rejected e, s1)
      | (inr v, s1) => (Resolved v, s1)
      end
  end.

Definition fetchWithCredentials (input : string) (init : RequestInit)
    (applyCreds : string → RequestInit → RequestInit)
    (handler : Z → handled) (fuel : nat) (s : state) : outcome T * state :=
  let '(creds, s0) := getCredentials s in
  requestLoop applyCreds handler fuel input init creds s0.

(** [fetchWithDVIDCredentials], api.ts lines 164-186: the call of
    [fetchWithCredentials] with [applyCredentials(input)] and the error
    handler above. *)
Definition fetchWithDVIDCredentials (fuel : nat) (input : string)
    (init : RequestInit) (s : state) : outcome T * state :=
  fetchWithCredentials input init (applyCredentials input) errorHandler fuel s.

(** [makeRequestWithCredentials], api.ts lines 134-145. *)
Definition makeRequestWithCredentials (fuel : nat) (c : HttpCall) (s : state)
    : outcome T * state :=
  fetchWithDVIDCredentials fuel (url c) (initOfCall c) s.

(** The attempt and the loop as [fetchWithDVIDCredentials] sets them up. *)
Definition dvidAttempt (input : string) (init : RequestInit) (creds : string)
    (s : state) : (exn + T) * state :=
  attempt (applyCredentials input) input init creds s.

Definition dvidLoop (fuel : nat) (input : string) (init : RequestInit)
    (creds : string) (s : state) : outcome T * state :=
  requestLoop (applyCredentials input) errorHandler fuel input init creds s.

Definition refreshes (s : state) : nat :=
  length (List.filter isRefresh (trace s)).

Definition attempts (s : state) : nat :=
  length (List.filter isAttempt (trace s)).

(** The classification in the words of section 4.1, kept apart from the
    loop above so that the two can be compared.  It speaks of the network
    and of the provider only: for the call [input], [init] attempted with
    the credential [creds], it gives the events of the call from that
    attempt on, how the call ends, and the network and the provider it
    leaves behind.
    - [on_success]: an answer that is no failure resolves the call;
    - [on_unauthorized]: on status 401 or 403 the provider refreshes its
      token and the same call is attempted again with the refreshed
      credential;
    - [on_transient]: on status 504 the same call is attempted again with
      the credential it had, and the provider is not asked for anything;
    - [on_fatal]: any other status goes to the caller, and nothing is
      attempted after it;
    - [on_error]: an error that is no failure response (a cancellation, a
      network error) goes to the caller as well. *)
Inductive specClassified (input : string) (init : RequestInit)
  : string → Net → Prov → list event → outcome T → Net → Prov → Prop :=
  | on_success (creds : string) (n n1 : Net) (p : Prov) (v : T) :
      cancellableFetchOk n input (applyCredentials input creds init)
        = (inr v, n1) →
      specClassified input init creds n p
        [EvAttempt input (applyCredentials input creds init)]
        (Resolved v) n1 p
  | on_unauthorized (creds creds' : string) (n n1 n2 : Net) (p p' p2 : Prov)
      (status : Z) (evs : list event) (o : outcome T) :
      cancellableFetchOk n input (applyCredentials input creds init)
        = (inl (HttpError status), n1) →
      status = 401 ∨ status = 403 →
      provider_refresh p = (creds', p') →
      specClassified input init creds' n1 p' evs o n2 p2 →
      specClassified input init creds n p
        (EvAttempt input (applyCredentials input creds init)
           :: EvRefresh :: evs)
        o n2 p2
  | on_transient (creds : string) (n n1 n2 : Net) (p p2 : Prov)
      (evs : list event) (o : outcome T) :
      cancellableFetchOk n input (applyCredentials input creds init)
        = (inl (HttpError 504), n1) →
      specClassified input init creds n1 p evs o n2 p2 →
      specClassified input init creds n p
        (EvAttempt input (applyCredentials input creds init) :: evs)
        o n2 p2
  | on_fatal (creds : string) (n n1 : Net) (p : Prov) (status : Z) :
      cancellableFetchOk n input (applyCredentials input creds init)
        = (inl (HttpError status), n1) →
      status ≠ 401 → status ≠ 403 → status ≠ 504 →
      specClassified input init creds n p
        [EvAttempt input (applyCredentials input creds init)]
        (Rejected (HttpError status)) n1 p
  | on_error (creds : string) (n n1 : Net) (p : Prov) (e : exn) :
      cancellableFetchOk n input (applyCredentials input creds init)
        = (inl e, n1) →
      (∀ status, e ≠ HttpError status) →
      specClassified input init creds n p
        [EvAttempt input (applyCredentials input creds init)]
        (Rejected e) n1 p.
End Driver.

End Transport.

(* ================================================================== *)
(** * JSON values as the resolver sees them *)

Module Json.

(** A parsed [.merge] document has type [any].  Numbers are restricted to
    the integers (body ids) of magnitude below 10^21: those [String]
    prints in plain decimal, while from 10^21 on it switches to exponent
    notation and a number with a fraction is no [Z] at all, so [JNum n]
    stands for no such number.  The members of an object play no part in
    this code. *)
#[warnings="-register-all"] Inductive json : Type :=
  | JNull
  | JBool (b : bool)
  | JNum (n : Z)
  | JStr (s : string)
  | JArr (xs : list json)
  | JObj.

(** [String(v)] and the conversion done by a template literal.  An array
    prints its elements separated by commas, [null] elements as the empty
    string. *)
Fixpoint String_ (j : json) : string :=
  match j with
  | JNull => "null"
  | JBool true => "true"
  | JBool false => "false"
  | JNum n => pretty n
  | JStr s => s
  | JArr xs =>
      String.concat ","
        (List.map (λ x, match x with JNull => "" | _ => String_ x end) xs)
  | JObj => "[object Object]"
  end.

(** The characters of a string, each as a string of its own. *)
Fixpoint chars (s : string) : list json :=
  match s with
  | EmptyString => []
  | String c s' => JStr (String c EmptyString) :: chars s'
  end.

(** [for (let key of keys)]: arrays yield their elements, strings their
    characters; nothing else in JSON is iterable, and the loop header
    throws a [TypeError]. *)
Definition iterate (keys : json) : option (list json) :=
  match keys with
  | JArr xs => Some xs
  | JStr s => Some (chars s)
  | _ => None
  end.

End Json.

(* ================================================================== *)
(** * backend.ts: decoding and fragment download *)

Module Backend.
Import Json.

Definition ArrayBuffer : Type := list byte.

Inductive Endianness : Type := LITTLE | BIG.

Definition byteZ (b : byte) : Z := Z.of_N (Byte.to_N b).

(** [new DataView(buf).getUint32(byteOffset, littleEndian)]: a
    [RangeError] when fewer than four bytes are left at the offset. *)
Definition getUint32 (buf : ArrayBuffer) (byteOffset : nat) (littleEndian : bool)
  : result Z :=
  match drop byteOffset buf with
  | b0 :: b1 :: b2 :: b3 :: _ =>
      if littleEndian then
        inr (Z.lor (Z.lor (Z.lor (byteZ b0) (Z.shiftl (byteZ b1) 8))
                          (Z.shiftl (byteZ b2) 16))
                   (Z.shiftl (byteZ b3) 24))
      else
        inr (Z.lor (Z.lor (Z.lor (byteZ b3) (Z.shiftl (byteZ b2) 8))
                          (Z.shiftl (byteZ b1) 16))
                   (Z.shiftl (byteZ b0) 24))
  | _ => inl (RangeError "Offset is outside the bounds of the DataView")
  end.

(** The unsigned integer that four bytes spell in the given byte order. *)
Definition word32 (e : Endianness) (b0 b1 b2 b3 : byte) : Z :=
  match e with
  | LITTLE => byteZ b0 + 2 ^ 8 * byteZ b1 + 2 ^ 16 * byteZ b2 + 2 ^ 24 * byteZ b3
  | BIG => byteZ b3 + 2 ^ 8 * byteZ b2 + 2 ^ 16 * byteZ b1 + 2 ^ 24 * byteZ b0
  end.

(** The vertex count a terminal leaf declares: the little-endian word in
    its first four bytes. *)
Definition vertexCountOf (leaf : ArrayBuffer) : option Z :=
  match leaf with
  | b0 :: b1 :: b2 :: b3 :: _ => Some (word32 LITTLE b0 b1 b2 b3)
  | _ => None
  end.

Section Decode.
(** The functions of [neuroglancer/mesh/backend] that the decoders call;
    that module is not under src/, so they are parameters here. *)
Context {MeshData Chunk : Type}.
Variable decodeTriangleVertexPositionsAndIndices :
  ArrayBuffer → Endianness → Z → Z → result MeshData.
Variable decodeTriangleVertexPositionsAndIndicesM :
  list ArrayBuffer → Endianness → Z → list Z → result MeshData.
Variable assignMeshFragmentData : Chunk → MeshData → result Chunk.

(** backend.ts lines 66-73.  The mutated [chunk] is the result. *)
Definition decodeFragmentChunk (chunk : Chunk) (response : ArrayBuffer)
  : result Chunk :=
  rbind (getUint32 response 0 true) (λ numVertices,
  rbind (decodeTriangleVertexPositionsAndIndices
           response LITTLE (*vertexByteOffset=*) 4 numVertices)
        (assignMeshFragmentData chunk)).

(** backend.ts lines 75-87. *)
Definition decodeFragmentChunkM (chunk : Chunk) (responses : list ArrayBuffer)
  : result Chunk :=
  rbind (rmapM (λ response, getUint32 response 0 true) responses)
        (λ numVerticesArray,
  rbind (decodeTriangleVertexPositionsAndIndicesM
           responses LITTLE (*vertexByteOffset=*) 4 numVerticesArray)
        (assignMeshFragmentData chunk)).
End Decode.

(** ** The download monad *)

Inductive logged : Type :=
  | LogExn (e : exn)
  | LogNum (n : nat).

(** What a download leaves behind, oldest first: the calls of
    [makeRequestWithCredentials] and the lines written to the console. *)
Inductive event : Type :=
  | Request (url : string) (rt : Transport.responseType)
  | ConsoleLog (what : logged).

#[global] Instance responseType_eq_dec : EqDecision Transport.responseType.
Proof. solve_decision. Defined.
#[global] Instance logged_eq_dec : EqDecision logged.
Proof. solve_decision. Defined.
#[global] Instance event_eq_dec : EqDecision event.
Proof. solve_decision. Defined.

(** What one leaf fetch adds to [data] and to the log. *)
Definition pushed (r : result ArrayBuffer) : list ArrayBuffer :=
  match r with
  | inl _ => []
  | inr b => [b]
  end.

Definition leafLog (url : string) (r : result ArrayBuffer) : list event :=
  match r with
  | inl e => [Request url Transport.RtArrayBuffer; ConsoleLog (LogExn e)]
  | inr _ => [Request url Transport.RtArrayBuffer]
  end.

Section Download.
(** The network as [makeRequestWithCredentials] presents it: the final
    outcome of a GET, and the state the network is left in.  Nothing is
    assumed about it; the same URL may be answered differently the next
    time. *)
Context {World : Type}.
Variable serveJson : World → string → result json * World.
Variable serveArrayBuffer : World → string → result ArrayBuffer * World.

Record St : Type := mkSt {
    world : World;
    log : list event
  }.

Definition M (A : Type) : Type := St → outcome A * St.

Definition ret {A} (a : A) : M A := λ s, (Resolved a, s).

Definition bind {A B} (m : M A) (k : A → M B) : M B :=
  λ s, match m s with
       | (Resolved a, s') => k a s'
       | (Rejected e, s') => (Rejected e, s')
       | (OutOfFuel, s') => (OutOfFuel, s')
       end.

Definition throw {A} (e : exn) : M A := λ s, (Rejected e, s).

Definition outOfFuel {A} : M A := λ s, (OutOfFuel, s).

(** [p.catch(h)] and [try { p } catch (e) { h }]. *)
Definition catch_ {A} (m : M A) (h : exn → M A) : M A :=
  λ s, match m s with
       | (Rejected e, s') => h e s'
       | r => r
       end.

Definition lift {A} (r : result A) : M A :=
  match r with
  | inl e => throw e
  | inr a => ret a
  end.

Definition emit (ev : event) : M unit :=
  λ s, (Resolved tt, {| world := world s; log := (log s ++ [ev])%list |}).

Definition consoleLog (what : logged) : M unit := emit (ConsoleLog what).

(** [makeRequestWithCredentials(this.credentialsProvider,
    {method: 'GET', url, responseType: 'json'}, cancellationToken)] *)
Definition requestJson (url : string) : M json :=
  λ s, let '(r, w) := serveJson (world s) url in
       lift r {| world := w; log := (log s ++ [Request url Transport.RtJson])%list |}.

(** The same with [responseType: 'arraybuffer']. *)
Definition requestArrayBuffer (url : string) : M ArrayBuffer :=
  λ s, let '(r, w) := serveArrayBuffer (world s) url in
       lift r {| world := w;
                 log := (log s ++ [Request url Transport.RtArrayBuffer])%list |}.

(** A [for ... of] loop whose body updates one local variable. *)
Fixpoint forOf {A B} (xs : list A) (body : A → B → M B) (acc : B) : M B :=
  match xs with
  | [] => ret acc
  | x :: xs' => bind (body x acc) (forOf xs' body)
  end.

(** The block that backend.ts has twice, at lines 110-118 and 139-147:
    [try { let response = await makeRequestWithCredentials(..meshUrl..);
           data.push(response); } catch (e) { console.log(e); }] *)
Definition tryPushLeaf (meshUrl : string) (data : list ArrayBuffer)
  : M (list ArrayBuffer) :=
  catch_ (bind (requestArrayBuffer meshUrl) (λ response,
          ret (data ++ [response])%list))
         (λ e, bind (consoleLog (LogExn e)) (λ _, ret data)).

(** The body of the loop of [downloadMergeFragment] for one [key], with
    [recurse] standing for [this.downloadMergeFragment]. *)
Definition mergeStep
    (recurse : string → json → json → M (list ArrayBuffer))
    (keyBaseUrl : string) (masterKey : json)
    (key : json) (data : list ArrayBuffer) : M (list ArrayBuffer) :=
  let url := keyBaseUrl ++ "/" ++ String_ key in
  let meshUrl := url ++ ".ngmesh" in
  if String.eqb (String_ masterKey) (String_ key) then
    tryPushLeaf meshUrl data
  else
    catch_
      (bind (requestJson (url ++ ".merge")) (λ response,
       bind (recurse keyBaseUrl response key) (λ result,
       let data' := (data ++ result)%list in
       bind (consoleLog (LogNum (length data'))) (λ _,
       ret data'))))
      (λ _, tryPushLeaf meshUrl data).

(** [DVIDMeshSource.downloadMergeFragment], backend.ts lines 99-153.
    The code does not bound the depth of the recursion; [fuel] does. *)
Fixpoint downloadMergeFragment (fuel : nat) (keyBaseUrl : string)
    (keys : json) (masterKey : json) : M (list ArrayBuffer) :=
  match iterate keys with
  | None => throw (TypeError "keys is not iterable")
  | Some ks =>
      match fuel with
      | O => outOfFuel
      | S fuel' =>
          forOf ks
            (mergeStep (downloadMergeFragment fuel') keyBaseUrl masterKey)
            []
      end
  end.

(** ** The merge graph a walk is served

      The reference for the order of the leaves.  A [graph] records what
      the server returned for one key: a terminal leaf (its bytes, or
      nothing when the fetch failed), or a merge document with the graphs
      of its child keys in declared order. *)
#[warnings="-register-all"] Inductive graph : Type :=
  | Leaf (bytes : option ArrayBuffer)
  | Merge (children : list graph).

(** The terminal leaves in depth-first, left-to-right order. *)
Fixpoint dfs (g : graph) : list ArrayBuffer :=
  match g with
  | Leaf (Some b) => [b]
  | Leaf None => []
  | Merge children => flat_map dfs children
  end.

Fixpoint height (g : graph) : nat :=
  match g with
  | Leaf _ => O
  | Merge children => S (foldr Nat.max O (List.map height children))
  end.

Definition heights (gs : list graph) : nat :=
  foldr Nat.max O (List.map height gs).

Definition fetched (r : result ArrayBuffer) : option ArrayBuffer :=
  match r with
  | inl _ => None
  | inr b => Some b
  end.

Definition leafUrl (keyBaseUrl : string) (key : json) : string :=
  (keyBaseUrl ++ "/" ++ String_ key) ++ ".ngmesh".

Definition mergeUrl (keyBaseUrl : string) (key : json) : string :=
  (keyBaseUrl ++ "/" ++ String_ key) ++ ".merge".

(** [served w base key master g w']: starting from network state [w],
    the server answers the requests for [key] with the graph [g] and is
    left in state [w'].  [servedAll] is the same for a list of keys. *)
Inductive served : World → string → json → json → graph → World → Prop :=
  | served_master w base key master r w' :
      String_ master = String_ key →
      serveArrayBuffer w (leafUrl base key) = (r, w') →
      served w base key master (Leaf (fetched r)) w'
  | served_merge w base key master doc ks w1 gs w2 :
      String_ master ≠ String_ key →
      serveJson w (mergeUrl base key) = (inr doc, w1) →
      iterate doc = Some ks →
      servedAll w1 base ks key gs w2 →
      served w base key master (Merge gs) w2
  | served_not_iterable w base key master doc w1 r w2 :
      String_ master ≠ String_ key →
      serveJson w (mergeUrl base key) = (inr doc, w1) →
      iterate doc = None →
      serveArrayBuffer w1 (leafUrl base key) = (r, w2) →
      served w base key master (Leaf (fetched r)) w2
  | served_plain w base key master e w1 r w2 :
      String_ master ≠ String_ key →
      serveJson w (mergeUrl base key) = (inl e, w1) →
      serveArrayBuffer w1 (leafUrl base key) = (r, w2) →
      served w base key master (Leaf (fetched r)) w2
with servedAll : World → string → list json → json → list graph → World → Prop :=
  | servedAll_nil w base master :
      servedAll w base [] master [] w
  | servedAll_cons w base key keys master g w1 gs w2 :
      served w base key master g w1 →
      servedAll w1 base keys master gs w2 →
      servedAll w base (key :: keys) master (g :: gs) w2.

Scheme served_mut := Induction for served Sort Prop
with servedAll_mut := Induction for servedAll Sort Prop.

(** What a resolved walk says about the server: the leaves are those of a
    graph it served, in depth-first order. *)
Definition walked (fuel : nat) : Prop :=
  ∀ base keys master (s : St) leaves s',
    downloadMergeFragment fuel base keys master s = (Resolved leaves, s') →
    ∃ ks gs, iterate keys = Some ks
             ∧ servedAll (world s) base ks master gs (world s')
             ∧ leaves = flat_map dfs gs.

(** The reading of the base case under which a failed fetch of the
    master leaf rejects the whole call with the error of the fetch. *)
Definition masterFailurePropagates : Prop :=
  ∀ fuel base keys master before key rest (s s1 : St) data e w1,
    iterate keys = Some (before ++ key :: rest)%list →
    forOf before (mergeStep (downloadMergeFragment fuel) base master) [] s
      = (Resolved data, s1) →
    String_ master = String_ key →
    serveArrayBuffer (world s1) (leafUrl base key) = (inl e, w1) →
    fst (downloadMergeFragment (S fuel) base keys master s) = Rejected e.

Section Fragment.
Context {MeshData Chunk : Type}.
Variable decodeTriangleVertexPositionsAndIndices :
  ArrayBuffer → Endianness → Z → Z → result MeshData.
Variable decodeTriangleVertexPositionsAndIndicesM :
  list ArrayBuffer → Endianness → Z → list Z → result MeshData.
Variable assignMeshFragmentData : Chunk → MeshData → result Chunk.

Record parameters : Type := mkParameters {
    baseUrl : string;
    nodeKey : string;
    dataInstanceKey : string
  }.

Definition keyBaseUrlOf (p : parameters) : string :=
  baseUrl p ++ "/api/node/" ++ nodeKey p ++ "/" ++ dataInstanceKey p
    ++ "/key".

(** [`${keyBaseUrl}/${chunk.fragmentId}.ngmesh`] and
[`${keyBaseUrl}/${chunk.fragmentId}.merge`] *)
Definition fragmentLeafUrl (p : parameters) (fragmentId : string) : string :=
  keyBaseUrlOf p ++ "/" ++ fragmentId ++ ".ngmesh".

Definition fragmentMergeUrl (p : parameters) (fragmentId : string) : string :=
  keyBaseUrlOf p ++ "/" ++ fragmentId ++ ".merge".

(** The promise that [.catch] is attached to at line 169: the
        [.merge] document, the merge graph, the merged decode. *)
Definition primaryPath (fuel : nat) (p : parameters) (chunk : Chunk)
    (fragmentId : string) : M Chunk :=
  let keyBaseUrl := keyBaseUrlOf p in
  let mergeUrl := keyBaseUrl ++ "/" ++ fragmentId ++ ".merge" in
  bind (requestJson mergeUrl) (λ response,
  bind (downloadMergeFragment fuel keyBaseUrl response (JStr fragmentId))
       (λ data,
  lift (decodeFragmentChunkM decodeTriangleVertexPositionsAndIndicesM
          assignMeshFragmentData chunk data))).

(** The handler given to [.catch], lines 169-175. *)
Definition fallbackPath (p : parameters) (chunk : Chunk)
    (fragmentId : string) (e : exn) : M Chunk :=
  bind (consoleLog (LogExn e)) (λ _,
  let url := keyBaseUrlOf p ++ "/" ++ fragmentId ++ ".ngmesh" in
  bind (requestArrayBuffer url) (λ response,
  lift (decodeFragmentChunk decodeTriangleVertexPositionsAndIndices
          assignMeshFragmentData chunk response))).

(** [DVIDMeshSource.downloadFragment], backend.ts lines 155-176. *)
Definition downloadFragment (fuel : nat) (p : parameters) (chunk : Chunk)
    (fragmentId : string) : M Chunk :=
  catch_ (primaryPath fuel p chunk fragmentId)
         (fallbackPath p chunk fragmentId).

(** The reading under which a cancelled primary path ends the call on
    the spot: nothing is requested or logged after it. *)
Definition cancellationSkipsFallback : Prop :=
  ∀ fuel p chunk fragmentId (s s' : St),
    primaryPath fuel p chunk fragmentId s = (Rejected CANCELED, s') →
    downloadFragment fuel p chunk fragmentId s = (Rejected CANCELED, s').
End Fragment.
End Download.

End Backend.

(* ================================================================== *)
(** * The mesh decoders of [neuroglancer/mesh/backend] *)

Module MeshBackend.
Import Backend.

(** Decoded geometry.  A vertex position component is kept as the 32-bit
    pattern of its float; three of them make a vertex. *)
Record EncodedMeshData : Type := mkMesh {
  vertexPositions : list Z;
  indices : list Z
}.

(** A byte range read as 32-bit words; [None] when its length is not a
    multiple of four. *)
Fixpoint words32 (e : Endianness) (bs : list byte) : option (list Z) :=
  match bs with
  | [] => Some []
  | b0 :: b1 :: b2 :: b3 :: rest =>
      match words32 e rest with
      | Some ws => Some (word32 e b0 b1 b2 b3 :: ws)
      | None => None
      end
  | _ => None
  end.

(** Modelled from the spec: [decodeTriangleVertexPositionsAndIndices],
    which is not under src/.  Section 4.3, decodeOne: the bytes
    [[off, off + 12 * count)] are [count] 32-bit float triples, the
    remaining bytes a stream of 32-bit unsigned indices whose length must
    be divisible by 3; a buffer with fewer bytes than the count asks for,
    and an index stream that is not whole, are decode errors. *)
Definition decodeTriangleVertexPositionsAndIndices (data : ArrayBuffer)
    (endianness : Endianness) (vertexByteOffset : Z) (numVertices : Z)
  : result EncodedMeshData :=
  let payload := drop (Z.to_nat vertexByteOffset) data in
  let nbytes := Z.to_nat (12 * numVertices) in
  if (length payload <? nbytes)%nat then
    inl (Error "truncated vertex data")
  else
    match words32 endianness (take nbytes payload),
          words32 endianness (drop nbytes payload) with
    | Some vs, Some ixs =>
        if (length ixs mod 3 =? 0)%nat then
          inr {| vertexPositions := vs; indices := ixs |}
        else inl (Error "Number of indices is not a multiple of 3")
    | _, _ => inl (Error "truncated index data")
    end.

(** The running vertex-offset add: the leaf decoded at offset [offset]
    has its indices shifted by it, and the next leaf starts
    [numVertices] further. *)
Fixpoint mergeLeaves (offset : Z) (leaves : list (Z * EncodedMeshData))
  : EncodedMeshData :=
  match leaves with
  | [] => {| vertexPositions := []; indices := [] |}
  | (numVertices, m) :: rest =>
      let r := mergeLeaves (offset + numVertices) rest in
      {| vertexPositions := vertexPositions m ++ vertexPositions r;
         indices := List.map (Z.add offset) (indices m) ++ indices r |}
  end.

(** Modelled from the spec: [decodeTriangleVertexPositionsAndIndicesM],
    which is not under src/.  Section 4.3, decodeMerged: each leaf is
    decoded independently, the positions are concatenated in leaf order
    and the indices with a running vertex-offset add.  The spec does not
    speak of overflow; indices are unbounded integers here. *)
Definition decodeTriangleVertexPositionsAndIndicesM
    (dataArray : list ArrayBuffer) (endianness : Endianness)
    (vertexByteOffset : Z) (numVerticesArray : list Z)
  : result EncodedMeshData :=
  rbind (rmapM (λ '(data, numVertices),
                  decodeTriangleVertexPositionsAndIndices
                    data endianness vertexByteOffset numVertices)
               (zip dataArray numVerticesArray))
        (λ leaves, inr (mergeLeaves 0 (zip numVerticesArray leaves))).

(** Modelled from the spec: [assignMeshFragmentData], which is not under
    src/: the decoded geometry becomes the chunk's mesh data. *)
Definition assignMeshFragmentData (chunk : option EncodedMeshData)
    (data : EncodedMeshData) : result (option EncodedMeshData) :=
  inr (Some data).

(** [decodeOne] and [decodeMerged] of the spec: the decoders of
    backend.ts over these parsers, on a chunk that holds no data yet. *)
Definition decodeOne (leaf : ArrayBuffer) : result (option EncodedMeshData) :=
  decodeFragmentChunk decodeTriangleVertexPositionsAndIndices
    assignMeshFragmentData None leaf.

Definition decodeMerged (leaves : list ArrayBuffer)
  : result (option EncodedMeshData) :=
  decodeFragmentChunkM decodeTriangleVertexPositionsAndIndicesM
    assignMeshFragmentData None leaves.

(** A terminal leaf on its own: its declared vertex count and its
    decoded arrays. *)
Definition leafData (leaf : ArrayBuffer) : result (Z * EncodedMeshData) :=
  rbind (getUint32 leaf 0 true) (λ numVertices,
  rbind (decodeTriangleVertexPositionsAndIndices leaf LITTLE 4 numVertices)
        (λ m, inr (numVertices, m))).

(** The invariant of a terminal leaf in the data model: every index is
    below the declared vertex count. *)
Definition indicesBelow (bound : Z) (m : EncodedMeshData) : bool :=
  forallb (λ i, Z.leb 0 i && Z.ltb i bound) (indices m).

(** [offset_i]: the sum of the vertex counts of the leaves before [i]. *)
Definition offsetOf (counts : list Z) (i : nat) : Z :=
  foldr Z.add 0 (take i counts).

(** What leaf [i] contributes to the merged index buffer. *)
Definition contribution (counts : list Z) (i : nat) (m : EncodedMeshData)
  : list Z :=
  List.map (Z.add (offsetOf counts i)) (indices m).

End MeshBackend.

(* ================================================================== *)
(** * Concrete collaborators *)

Module Scripted.
Import Transport.

(** A network that answers the attempts of one call from a script, in
    order, and a provider whose tokens are numbered by generation. *)
Definition Net : Type := list (result string).

Definition cancellableFetchOk (n : Net) (input : string) (init : RequestInit)
  : result string * Net :=
  match n with
  | r :: rest => (r, rest)
  | [] => (inl (Error "Failed to fetch"), [])
  end.

Definition token (generation : nat) : string :=
  "token" ++ pretty generation.

Definition provider_get (generation : nat) : string * nat :=
  (token generation, generation).

Definition provider_refresh (generation : nat) : string * nat :=
  (token (S generation), S generation).

Definition start (script : Net) : @state Net nat :=
  {| net := script; prov := O; trace := [] |}.

Definition run (fuel : nat) (c : HttpCall) (script : Net)
  : outcome string * @state Net nat :=
  makeRequestWithCredentials cancellableFetchOk provider_get provider_refresh
    fuel c (start script).

Definition getBody : HttpCall :=
  {| call_method := "GET";
     url := "https://emdata.example.org/api/node/abc/segmentation_meshes/key/7.ngmesh";
     payload := None;
     call_responseType := RtArrayBuffer |}.

End Scripted.

Module Tabled.
Import Json Backend.

(** A server without state that holds a small merge graph under
    ["d/api/node/n/m/key"]: the document of ["1"] lists [2], [1] and [3];
    the document of ["2"] lists [2] and [4]; leaves exist for [1], [2]
    and [4] only.  Every other key is answered 404. *)
Definition params : parameters :=
  {| baseUrl := "d"; nodeKey := "n"; dataInstanceKey := "m" |}.

Definition base : string := "d/api/node/n/m/key".

Definition u32 (b : byte) : list byte := [b; "000"; "000"; "000"]%byte.

Definition zeros (n : nat) : list byte := replicate n "000"%byte.

(** Leaf of ["1"]: three vertices, one triangle [0, 1, 2]. *)
Definition leafA : ArrayBuffer :=
  (u32 "003" ++ zeros 36 ++ u32 "000" ++ u32 "001" ++ u32 "002")%list.

(** Leaf of ["2"]: one vertex, no triangle. *)
Definition leafB : ArrayBuffer :=
  (u32 "001" ++ zeros 12)%list.

(** Leaf of ["4"]: two vertices, one triangle [0, 1, 1]. *)
Definition leafC : ArrayBuffer :=
  (u32 "002" ++ zeros 24 ++ u32 "000" ++ u32 "001" ++ u32 "001")%list.

(** A leaf that breaks the invariant: one vertex, indices [0, 1, 7]. *)
Definition leafBad : ArrayBuffer :=
  (u32 "001" ++ zeros 12 ++ u32 "000" ++ u32 "001" ++ u32 "007")%list.

Definition serveJson (w : unit) (url : string) : result json * unit :=
  if String.eqb url (base ++ "/1.merge") then
    (inr (JArr [JNum 2; JNum 1; JNum 3]), tt)
  else if String.eqb url (base ++ "/2.merge") then
    (inr (JArr [JNum 2; JNum 4]), tt)
  else (inl (HttpError 404), tt).

Definition serveArrayBuffer (w : unit) (url : string)
  : result ArrayBuffer * unit :=
  if String.eqb url (base ++ "/1.ngmesh") then (inr leafA, tt)
  else if String.eqb url (base ++ "/2.ngmesh") then (inr leafB, tt)
  else if String.eqb url (base ++ "/4.ngmesh") then (inr leafC, tt)
  else (inl (HttpError 404), tt).

Definition start : @St unit := {| world := tt; log := [] |}.

(** A server on which no leaf can be fetched. *)
Definition serveNoLeaf (w : unit) (url : string) : result ArrayBuffer * unit :=
  (inl (HttpError 404), tt).

(** The network once the cancellation token has fired: every request is
    rejected with the cancellation. *)
Definition cancelledJson (w : unit) (url : string) : result json * unit :=
  (inl CANCELED, tt).

Definition cancelledArrayBuffer (w : unit) (url : string)
  : result ArrayBuffer * unit :=
  (inl CANCELED, tt).

Definition doc1 : json := JArr [JNum 2; JNum 1; JNum 3].

(** The state of the loop over [doc1] when it reaches its last key. *)
Definition afterTwoKeys : @St unit :=
  {| world := tt;
     log := [Request (base ++ "/2.merge") Transport.RtJson;
             Request (base ++ "/2.ngmesh") Transport.RtArrayBuffer;
             Request (base ++ "/4.merge") Transport.RtJson;
             Request (base ++ "/4.ngmesh") Transport.RtArrayBuffer;
             ConsoleLog (LogNum 2);
             Request (base ++ "/1.ngmesh") Transport.RtArrayBuffer] |}.

(** and when it reaches its second key. *)
Definition afterOneKey : @St unit :=
  {| world := tt;
     log := [Request (base ++ "/2.merge") Transport.RtJson;
             Request (base ++ "/2.ngmesh") Transport.RtArrayBuffer;
             Request (base ++ "/4.merge") Transport.RtJson;
             Request (base ++ "/4.ngmesh") Transport.RtArrayBuffer;
             ConsoleLog (LogNum 2)] |}.

Definition afterMerge (fragmentId : string) : @St unit :=
  {| world := tt;
     log := [Request (base ++ "/" ++ fragmentId ++ ".merge")
               Transport.RtJson] |}.

Definition decodedBCA : list (Z * MeshBackend.EncodedMeshData) :=
  [(1, MeshBackend.mkMesh [0; 0; 0] []);
   (2, MeshBackend.mkMesh [0; 0; 0; 0; 0; 0] [0; 1; 1]);
   (3, MeshBackend.mkMesh [0; 0; 0; 0; 0; 0; 0; 0; 0] [0; 1; 2])].

(** The download of a fragment on a given network, with the decoders
    of the mesh backend and a chunk that holds no data yet. *)
Definition download (sj : unit → string → result json * unit)
    (sb : unit → string → result ArrayBuffer * unit)
    (fuel : nat) (fragmentId : string) :=
  downloadFragment sj sb
    MeshBackend.decodeTriangleVertexPositionsAndIndices
    MeshBackend.decodeTriangleVertexPositionsAndIndicesM
    MeshBackend.assignMeshFragmentData
    fuel params None fragmentId start.

Definition primary (sj : unit → string → result json * unit)
    (sb : unit → string → result ArrayBuffer * unit)
    (fuel : nat) (fragmentId : string) :=
  primaryPath sj sb
    MeshBackend.decodeTriangleVertexPositionsAndIndicesM
    MeshBackend.assignMeshFragmentData
    fuel params None fragmentId start.

End Tabled.

(* ================================================================== *)
(** * api.ts: URL builders, query string, response transforms *)

Module Api.
Import Transport.

(** [if (x)] on a value of type [string|null|undefined]: the empty string
    and an absent value are falsy. *)
Definition truthy (x : option string) : bool :=
  match x with
  | Some s => (0 <? String.length s)%nat
  | None => false
  end.

(** [class DVIDInstance], api.ts lines 43-79 ([getMergeStatUrl] reads the
    clock and is left out). *)
Record DVIDInstance : Type := mkInstance {
  baseUrl : string;
  nodeKey : string
}.

Definition getNodeApiUrl (i : DVIDInstance) (path : string) : string :=
  baseUrl i ++ "/api/node/" ++ nodeKey i ++ path.

Definition getRepoInfoUrl (i : DVIDInstance) : string :=
  baseUrl i ++ "/api/repos/info".

Definition getKeyValueUrl (i : DVIDInstance) (dataName key : string) : string :=
  getNodeApiUrl i "" ++ "/" ++ dataName ++ "/key/" ++ key.

Definition getKeyValueRangeUrl (i : DVIDInstance)
    (dataName startKey endKey : string) : string :=
  getNodeApiUrl i "" ++ "/" ++ dataName ++ "/keyrange/" ++ startKey
    ++ "/" ++ endKey.

Definition getKeyValuesUrl (i : DVIDInstance) (dataName : string) : string :=
  getNodeApiUrl i "" ++ "/" ++ dataName ++ "/keyvalues?jsontar=false".

Definition getBodyAnnotationUrl (i : DVIDInstance)
    (segmentationDataName id : string) : string :=
  getKeyValueUrl i (segmentationDataName ++ "_annotations") id.

Definition getSparsevolUrl (i : DVIDInstance)
    (segmentationDataName id : string) : string :=
  getNodeApiUrl i "" ++ "/" ++ segmentationDataName ++ "/sparsevol/" ++ id.

(** [hay.includes(needle)] *)
Fixpoint includes (needle hay : string) : bool :=
  String.prefix needle hay
  || match hay with
     | EmptyString => false
     | String _ rest => includes needle rest
     end.

(** [appendQueryStringForDvid], api.ts lines 81-92. *)
Definition appendQueryStringForDvid (url : string) (user : option string)
  : string :=
  let url1 := if includes "?" url then url ++ "&" else url ++ "?" in
  let url2 := url1 ++ "app=Neuroglancer" in
  if truthy user then url2 ++ "&u=" ++ default "" user else url2.

(** [XMLHttpRequestResponseType], the type of [responseType] in the
    implementation signatures of [makeRequest] and
    [makeRequestWithCredentials]. *)
Inductive XMLHttpRequestResponseType : Type :=
  | rtEmpty
  | rtArraybuffer
  | rtBlob
  | rtDocument
  | rtJson
  | rtText.

(** The functions of [neuroglancer/util/http_request] that turn a
    response into the value of the promise. *)
Inductive ResponseTransform : Type :=
  | responseText
  | responseJson
  | responseArrayBuffer.

(** The transform [makeRequest] passes on, api.ts lines 114-118. *)
Definition makeRequestTransform (rt : XMLHttpRequestResponseType)
  : ResponseTransform :=
  match rt with
  | rtEmpty => responseText
  | _ => responseJson
  end.

(** The transform [makeRequestWithCredentials] passes on, line 142. *)
Definition makeRequestWithCredentialsTransform
    (rt : XMLHttpRequestResponseType) : ResponseTransform :=
  match rt with
  | rtEmpty => responseText
  | rtJson => responseJson
  | _ => responseArrayBuffer
  end.

Definition defaultDvidService : string :=
  "https://ngsupport-bmcp5imp6q-uk.a.run.app".

Definition defaultMeshService : string :=
  defaultDvidService ++ "/small-mesh".

Definition defaultLocateService : string :=
  defaultDvidService ++ "/locate-body".

(** The fields of [DVIDSourceParameters] that api.ts reads. *)
Record DVIDSourceParameters : Type := mkSourceParameters {
  sp_baseUrl : string;
  sp_nodeKey : string;
  sp_user : option string
}.

Definition meshServiceUrl (parameters : DVIDSourceParameters)
    (fragmentId : string) : string :=
  (defaultMeshService
     ++ ("?dvid=" ++ sp_baseUrl parameters ++ "&uuid=" ++ sp_nodeKey parameters
           ++ "&body=" ++ fragmentId ++ "&decimation=0.5"))
    ++ (if truthy (sp_user parameters)
        then "&u=" ++ default "" (sp_user parameters)
        else "").

(** [fetchMeshDataFromService], api.ts lines 188-200: the call it hands
    to [makeRequestWithCredentials], or the error it throws. *)
Definition fetchMeshDataFromService (parameters : DVIDSourceParameters)
    (fragmentId : string) : result HttpCall :=
  if (0 <? String.length defaultMeshService)%nat then
    inr {| call_method := "GET";
           url := meshServiceUrl parameters fragmentId;
           payload := None;
           call_responseType := RtArrayBuffer |}
  else inl (Error "No mesh service available").

(** The second [applyCredentials] of the file, api.ts lines 304-319,
    used by [fetchWithReadyDVIDCredentials]: the headers are built
    afresh. *)
Definition applyCredentialsReady (input : string) (creds : string)
    (init : RequestInit) : RequestInit :=
  let headers0 : gmap string string := ∅ in
  let newInit := init in
  if String.prefix "https" input then
    if (0 <? String.length creds)%nat then
      {| method := method newInit;
         body := body newInit;
         headers := Some (<["Authorization" := "Bearer " ++ creds]> headers0);
         credentials := credentials newInit |}
    else
      {| method := method newInit;
         body := body newInit;
         headers := Some headers0;
         credentials := Some "include" |}
  else newInit.

End Api.

(* ================================================================== *)
(** * backend.ts: annotations *)

Module Annotations.
Import Json Backend.

(** backend.ts lines 301-310. *)
Definition annotationToDVIDType (typestr : string) : string :=
  if String.eqb typestr "False Merge" then "Split"
  else if String.eqb typestr "False Split" then "Merge"
  else typestr.

(** backend.ts lines 312-321. *)
Definition DVIDToAnnotationType (typestr : string) : string :=
  if String.eqb typestr "Split" then "False Merge"
  else if String.eqb typestr "Merge" then "False Split"
  else typestr.

(** The body of the loop of [removeEmptyField] for one key of the
    object: [if (obj.hasOwnProperty(key)) if (obj[key] === '') delete
    obj[key]]. *)
Definition removeIfEmpty (obj : gmap string string) (key : string)
  : gmap string string :=
  match obj !! key with
  | Some v => if String.eqb v "" then delete key obj else obj
  | None => obj
  end.

(** [removeEmptyField], backend.ts lines 357-366: the loop runs over the
    keys the object has when it starts. *)
Definition removeEmptyField (obj : gmap string string) : gmap string string :=
  fold_left removeIfEmpty (map_to_list obj).*1 obj.

(** What [annotationToDVID] reads from the annotation.  The accessors of
    [DVIDPointAnnotationFacade] belong to [neuroglancer/datasource/dvid/utils],
    which is not under src/; the values they return are fields here, and
    so are the coordinates (numbers, kept abstract) and the labels
    [annotation.relatedSegments[0].map(x => x.toString())]. *)
Record PointView (Num : Type) : Type := mkPointView {
  point : Num * Num * Num;
  objectLabels : option (list string);
  prop : option (gmap string string);
  bookmarkType : option string;
  checked : bool
}.
Arguments point {Num} _.
Arguments objectLabels {Num} _.
Arguments prop {Num} _.
Arguments bookmarkType {Num} _.
Arguments checked {Num} _.

(** The object [annotationToDVID] returns. *)
Record DVIDNote (Num : Type) : Type := mkNote {
  Kind : string;
  Pos : list Num;
  Prop_ : gmap string string;
  Tags : option (list string)
}.
Arguments Kind {Num} _.
Arguments Pos {Num} _.
Arguments Prop_ {Num} _.
Arguments Tags {Num} _.

(** [annotationToDVID], backend.ts lines 368-415. *)
Definition annotationToDVID {Num : Type} (annotation : PointView Num)
    (user : option string) : DVIDNote Num :=
  let '(p0, p1, p2) := point annotation in
  let prop0 : gmap string string := default ∅ (prop annotation) in
  let prop1 :=
    if Api.truthy (bookmarkType annotation) then
      <["type" := annotationToDVIDType (default "" (bookmarkType annotation))]> prop0
    else prop0 in
  let prop2 := removeEmptyField prop1 in
  let prop3 :=
    if bool_decide (is_Some (prop2 !! "checked")) then
      if negb (checked annotation) then delete "checked" prop2 else prop2
    else prop2 in
  let prop4 :=
    match objectLabels annotation with
    | Some (label :: _) => <["body ID" := label]> prop3
    | _ => prop3
    end in
  if Api.truthy user then
    {| Kind := "Note";
       Pos := [p0; p1; p2];
       Prop_ := <["user" := default "" user]> prop4;
       Tags := Some ["user:" ++ default "" user] |}
  else
    {| Kind := "Note"; Pos := [p0; p1; p2]; Prop_ := prop4; Tags := None |}.

(** No property but ['body ID'] has the empty string as its value. *)
Definition filled (m : gmap string string) : Prop :=
  ∀ k v, m !! k = Some v → k ≠ "body ID" → v ≠ "".

(** The properties of the note before the user is written. *)
Definition propBeforeUser {Num : Type} (a : PointView Num) : gmap string string :=
  let prop0 : gmap string string := default ∅ (prop a) in
  let prop1 :=
    if Api.truthy (bookmarkType a) then
      <["type" := annotationToDVIDType (default "" (bookmarkType a))]> prop0
    else prop0 in
  let prop2 := removeEmptyField prop1 in
  let prop3 :=
    if bool_decide (is_Some (prop2 !! "checked")) then
      if negb (checked a) then delete "checked" prop2 else prop2
    else prop2 in
  match objectLabels a with
  | Some (label :: _) => <["body ID" := label]> prop3
  | _ => prop3
  end.

(** [response.length] for a parsed JSON value: [null] has no properties
    and the access throws; a value without the property gives
    [undefined]. *)
Definition lengthOf (response : json) : result (option nat) :=
  match response with
  | JNull => inl (TypeError "Cannot read properties of null")
  | JArr xs => inr (Some (length xs))
  | JStr s => inr (Some (String.length s))
  | _ => inr None
  end.

(** [response[0]], read when [response.length > 0]. *)
Definition first (response : json) : json :=
  match response with
  | JArr (x :: _) => x
  | JStr (String c _) => JStr (String c EmptyString)
  | _ => JNull
  end.

Section Metadata.
Context {World Annotation : Type}.
Variable serveJson : World → string → result json * World.
(** [parseAnnotation] relies on the verifiers of [neuroglancer/util/json],
    which are not under src/: it is a parameter. *)
Variable parseAnnotation : json → result (option Annotation).

(** [p.then(onFulfilled, onRejected)]: the second handler sees the
    rejections of [p] only. *)
Definition then2 {A B} (m : @M World A) (onFulfilled : A → @M World B)
    (onRejected : exn → @M World B) : @M World B :=
  λ s, match m s with
       | (Resolved a, s') => onFulfilled a s'
       | (Rejected e, s') => onRejected e s'
       | (OutOfFuel, s') => (OutOfFuel, s')
       end.

Definition annotationUrl (p : parameters) (annotationId : string) : string :=
  Api.getNodeApiUrl {| Api.baseUrl := baseUrl p; Api.nodeKey := nodeKey p |}
    (("/" ++ dataInstanceKey p ++ "/elements") ++ "/1_1_1/" ++ annotationId).

(** [DVIDAnnotationSource.downloadMetadata], backend.ts lines 516-539.
    The result is the value left in [chunk.annotation]. *)
Definition downloadMetadata (p : parameters) (id : string)
  : @M World (option Annotation) :=
  then2 (requestJson serveJson (annotationUrl p id))
    (λ response,
       bind (lift (lengthOf response)) (λ len,
       match len with
       | Some (S _) => lift (parseAnnotation (first response))
       | _ => ret None
       end))
    (λ _, ret None).
End Metadata.

(** The URL of [DVIDAnnotationSource.update], backend.ts line 586. *)
Definition updateUrl (p : parameters) (user : option string) : string :=
  (Api.getNodeApiUrl {| Api.baseUrl := baseUrl p; Api.nodeKey := nodeKey p |}
     ("/" ++ dataInstanceKey p ++ "/elements")
   ++ "?app=Neuroglancer")
  ++ (if Api.truthy user then "&u=" ++ default "" user else "").

End Annotations.

(* ================================================================== *)
(** * clio/utils.ts *)

Module Clio.

(** The separator of position keys. *)
Definition underscore : Ascii.ascii := Ascii.ascii_of_nat 95.

(** [s.split(sep)] for a separator of one character. *)
Fixpoint split (sep : Ascii.ascii) (s : string) : list string :=
  match s with
  | EmptyString => [EmptyString]
  | String c rest =>
      if Ascii.eqb c sep then EmptyString :: split sep rest
      else match split sep rest with
           | part :: parts => String c part :: parts
           | [] => [String c EmptyString]
           end
  end.

Fixpoint occurrences (sep : Ascii.ascii) (s : string) : nat :=
  match s with
  | EmptyString => O
  | String c rest =>
      if Ascii.eqb c sep then S (occurrences sep rest)
      else occurrences sep rest
  end.

Section Position.
(** Numbers and the unary plus that turns a string into one. *)
Context {Num : Type}.
Variable toNumber : string → Num.

(** [V1PointAnnotationRequestHelper.getPositionFromKey], clio/utils.ts
    lines 98-107: the arguments given to [vec3.fromValues], or [null]. *)
Definition getPositionFromKey (key : string) : option (Num * Num * Num) :=
  if (0 <? String.length key)%nat then
    match List.map toNumber (split underscore key) with
    | [x; y; z] => Some (x, y, z)
    | _ => None
    end
  else None.
End Position.

(** [annotation.ext] with the members the facade reads. *)
Record Ext : Type := mkExt {
  ext_title : option string;
  ext_description : option string;
  ext_user : option string
}.

Record ClioAnnotation (Num : Type) : Type := mkClio {
  kind : string;
  cpoint : Num * Num * Num;
  ext : option Ext;
  cprop : option (gmap string string)
}.
Arguments kind {Num} _.
Arguments cpoint {Num} _.
Arguments ext {Num} _.
Arguments cprop {Num} _.

(** The getters of [ClioAnnotationFacade], lines 31-49:
    [this.annotation.ext && this.annotation.ext.title] and the like. *)
Definition title {Num} (a : ClioAnnotation Num) : option string :=
  ext a ≫= ext_title.

Definition description {Num} (a : ClioAnnotation Num) : option string :=
  ext a ≫= ext_description.

Definition user {Num} (a : ClioAnnotation Num) : option string :=
  ext a ≫= ext_user.

(** What [V1PointAnnotationRequestHelper.encode] returns. *)
Record V1Object : Type := mkV1 {
  v1_Kind : string;
  v1_description : option string;
  v1_title : option string;
  v1_user : option string;
  v1_Prop : option (gmap string string)
}.

(** [V1PointAnnotationRequestHelper.encode], lines 109-139.
    [presentation] is a getter of the base facade, which is not under
    src/: its value is an argument. *)
Definition encodeV1 {Num} (annotation : ClioAnnotation Num)
    (presentation : option string) : V1Object :=
  {| v1_Kind := kind annotation;
     v1_description :=
       match presentation with
       | Some d => Some d
       | None => if String.eqb (kind annotation) "Atlas" then Some "" else None
       end;
     v1_title := title annotation;
     v1_user := user annotation;
     v1_Prop :=
       match cprop annotation with
       | Some p => Some (delete "title" (delete "user" (delete "comment" p)))
       | None => None
       end |}.

(** What [V2PointAnnotationRequestHelper.encode] returns when it is not
    [null]. *)
Record V2Object (Num : Type) : Type := mkV2 {
  v2_tags : list string;
  v2_description : option string;
  v2_user : string;
  v2_title : option string;
  v2_prop : gmap string string;
  v2_kind : string;
  v2_pos : list Num
}.
Arguments v2_tags {Num} _.
Arguments v2_description {Num} _.
Arguments v2_user {Num} _.
Arguments v2_title {Num} _.
Arguments v2_prop {Num} _.
Arguments v2_kind {Num} _.
Arguments v2_pos {Num} _.

(** [V2PointAnnotationRequestHelper.encode], lines 206-229. *)
Definition encodeV2 {Num} (annotation : ClioAnnotation Num)
  : option (V2Object Num) :=
  if Api.truthy (user annotation) then
    let '(p0, p1, p2) := cpoint annotation in
    Some {| v2_tags := [];
            v2_description := description annotation;
            v2_user := default "" (user annotation);
            v2_title := title annotation;
            v2_prop := default ∅ (cprop annotation);
            v2_kind := "point";
            v2_pos := [p0; p1; p2] |}
  else None.

(** The request helpers and the argument of [uploadable]. *)
Inductive Helper : Type :=
  | V1PointAnnotationRequestHelper (sendingToServer : bool)
  | V2PointAnnotationRequestHelper (sendingToServer : bool)
  | V2AtlasAnnotationRequestHelper (sendingToServer : bool).

Definition sendingToServer (h : Helper) : bool :=
  match h with
  | V1PointAnnotationRequestHelper b
  | V2PointAnnotationRequestHelper b
  | V2AtlasAnnotationRequestHelper b => b
  end.

(** [uploadable], lines 68-70 and 313-324; the argument is an annotation
    or a string. *)
Definition uploadable {Num} (h : Helper) (a : ClioAnnotation Num + string)
  : bool :=
  match h with
  | V2AtlasAnnotationRequestHelper b =>
      if b then
        match a with
        | inl annotation =>
            match title annotation with
            | Some t => (0 <? String.length t)%nat
            | None => false
            end
        | inr _ => false
        end
      else false
  | _ => sendingToServer h
  end.

(** The point helper of [makeEncoders(api, kind)], lines 344-360. *)
Definition makeEncoders (api kind : option string) : Helper :=
  if bool_decide (api = Some "v2") then
    if bool_decide (kind = Some "Atlas") then V2AtlasAnnotationRequestHelper true
    else V2PointAnnotationRequestHelper true
  else V1PointAnnotationRequestHelper true.

End Clio.

(* ================================================================== *)
(** * What a resolve call may leave in the log *)

Module Logs.
Import Json Backend.

(** An event the resolver may add under [keyBaseUrl]: a line on the
    console, the request of the [.merge] document of some key as JSON, or
    the request of the [.ngmesh] leaf of some key as an array buffer. *)
Definition underBase (keyBaseUrl : string) (ev : event) : Prop :=
  match ev with
  | ConsoleLog _ => True
  | Request u Transport.RtJson => ∃ key, u = mergeUrl keyBaseUrl key
  | Request u Transport.RtArrayBuffer => ∃ key, u = leafUrl keyBaseUrl key
  | Request _ Transport.RtText => False
  end.

(** The log of [s'] is the log of [s] followed by events that stay
    under [base]. *)
Definition grows {World : Type} (base : string) (s s' : @St World) : Prop :=
  ∃ added, log s' = (log s ++ added)%list ∧ Forall (underBase base) added.

(** Two keys that print alike. *)
Definition sameText (a b : json) : Prop := String_ a = String_ b.

(** [DVIDSkeletonSource.download] builds its URL by hand, backend.ts
    lines 47-49. *)
Definition skeletonUrl (p : parameters) (bodyid : string) : string :=
  ((baseUrl p ++ "/api/node/" ++ nodeKey p)
     ++ ("/" ++ dataInstanceKey p ++ "/key/")) ++ bodyid ++ "_swc".

Definition instanceOf (p : parameters) : Api.DVIDInstance :=
  {| Api.baseUrl := baseUrl p; Api.nodeKey := nodeKey p |}.

End Logs.

(* ================================================================== *)
(** * More concrete collaborators *)

Module Samples.
Import Json Backend Tabled.

(** A server whose [.merge] document for ["5"] is an object and for
    ["6"] the empty array; it has no other document. *)
Definition serveOddJson (w : unit) (url : string) : result json * unit :=
  if String.eqb url (base ++ "/5.merge") then (inr JObj, tt)
  else if String.eqb url (base ++ "/6.merge") then (inr (JArr []), tt)
  else (inl (HttpError 404), tt).

(** A server that knows no annotation. *)
Definition serveNoAnnotation (w : unit) (url : string) : result json * unit :=
  (inl (HttpError 404), tt).

(** A parser that accepts every entry and keeps it. *)
Definition keepEntry (entry : json) : result (option json) := inr (Some entry).

(** A bookmark: an empty comment, the mark ['checked'] on a bookmark
    that is not checked, one label. *)
Definition bookmark : Annotations.PointView Z :=
  {| Annotations.point := (10, 20, 30);
     Annotations.objectLabels := Some ["42"];
     Annotations.prop :=
       Some (<["comment" := ""]> (<["checked" := "1"]> (∅ : gmap string string)));
     Annotations.bookmarkType := Some "False Merge";
     Annotations.checked := false |}.

(** An atlas point with a title, and the same without. *)
Definition titled : Clio.ClioAnnotation Z :=
  {| Clio.kind := "Atlas";
     Clio.cpoint := (1, 2, 3);
     Clio.ext := Some {| Clio.ext_title := Some "soma";
                         Clio.ext_description := None;
                         Clio.ext_user := Some "ada" |};
     Clio.cprop :=
       Some (<["comment" := "old"]> (<["color" := "red"]> (∅ : gmap string string))) |}.

Definition insecureParams : Api.DVIDSourceParameters :=
  {| Api.sp_baseUrl := "http://emdata.example.org";
     Api.sp_nodeKey := "abc";
     Api.sp_user := None |}.

(** Request options that already carry a header. *)
Definition acceptJson : Transport.RequestInit :=
  {| Transport.method := Some "GET";
     Transport.body := None;
     Transport.headers :=
       Some (<["Accept" := "application/json"]> (∅ : gmap string string));
     Transport.credentials := None |}.

End Samples.

(* ================================================================== *)
(** * Properties of the credentialed transport *)

Section TransportFacts.
Import Transport.

Lemma nonempty_length (creds : string) :
  creds ≠ "" → (0 <? String.length creds)%nat = true.
Proof.
  destruct creds as [|c rest]; [congruence | reflexivity].
Qed.

Lemma applyCredentials_bearer (input creds : string) (init : RequestInit) :
  String.prefix "https" input = true →
  creds ≠ "" →
  authorization (applyCredentials input creds init) = Some ("Bearer " ++ creds)
  ∧ credentials (applyCredentials input creds init) = credentials init.
Proof.
  intros Hs Hc. unfold applyCredentials.
  rewrite Hs, (nonempty_length _ Hc). unfold authorization. simpl.
  split; [apply lookup_insert_eq | reflexivity].
Qed.

Lemma applyCredentials_cookies (input : string) (init : RequestInit) :
  String.prefix "https" input = true →
  credentials (applyCredentials input "" init) = Some "include"
  ∧ headers (applyCredentials input "" init) = headers init.
Proof.
  intros Hs. unfold applyCredentials. rewrite Hs. simpl. auto.
Qed.

(** C10: when the target does not start with [https], the credential step
    hands back the request options as they were, whatever the credential:
    no [Authorization] header is added and cookie inclusion is not turned
    on. *)
Theorem applyCredentials_insecure_unchanged
    (input creds : string) (init : RequestInit) :
  String.prefix "https" input = false →
  applyCredentials input creds init = init
  ∧ authorization (applyCredentials input creds init) = authorization init
  ∧ credentials (applyCredentials input creds init) = credentials init.
Proof.
  intros Hs. unfold applyCredentials. rewrite Hs. auto.
Qed.

Lemma applyCredentials_insecure_unchanged_witness :
  applyCredentials "http://emdata.example.org/api" "secret"
    (initOfCall Scripted.getBody) = initOfCall Scripted.getBody
  ∧ authorization (applyCredentials "http://emdata.example.org/api" "secret"
      (initOfCall Scripted.getBody)) = authorization (initOfCall Scripted.getBody)
  ∧ credentials (applyCredentials "http://emdata.example.org/api" "secret"
      (initOfCall Scripted.getBody)) = credentials (initOfCall Scripted.getBody).
Proof.
  apply (applyCredentials_insecure_unchanged
           "http://emdata.example.org/api" "secret"
           (initOfCall Scripted.getBody)).
  reflexivity.
Defined.

(** C8: an attempt of a transport call to an [https] target uses exactly
    one of the two modes.  With a non-empty credential the request carries
    [Authorization: Bearer <credential>] and cookie inclusion stays off;
    with the empty credential cookie inclusion is on and there is no
    bearer header.  The request options are the ones
    [makeRequestWithCredentials] builds from the call. *)
Theorem applyCredentials_one_mode (c : HttpCall) (creds : string) :
  String.prefix "https" (url c) = true →
  let sent := applyCredentials (url c) creds (initOfCall c) in
  (creds ≠ "" →
     authorization sent = Some ("Bearer " ++ creds)
     ∧ credentials sent = None
     ∧ carriesBearer sent = true ∧ ambientCookies sent = false)
  ∧ (creds = "" →
     credentials sent = Some "include"
     ∧ authorization sent = None
     ∧ carriesBearer sent = false ∧ ambientCookies sent = true)
  ∧ carriesBearer sent && ambientCookies sent = false.
Proof.
  intros Hs sent.
  assert (Hne : creds ≠ "" →
     authorization sent = Some ("Bearer " ++ creds)
     ∧ credentials sent = None
     ∧ carriesBearer sent = true ∧ ambientCookies sent = false).
  { intros Hc.
    destruct (applyCredentials_bearer (url c) creds (initOfCall c) Hs Hc)
      as [Ha Hk].
    fold sent in Ha, Hk. simpl in Hk.
    unfold carriesBearer, ambientCookies. rewrite Ha, Hk.
    split; [reflexivity | split; [reflexivity | split]].
    + apply bool_decide_eq_true. eauto.
    + apply bool_decide_eq_false. congruence. }
  assert (He : creds = "" →
     credentials sent = Some "include"
     ∧ authorization sent = None
     ∧ carriesBearer sent = false ∧ ambientCookies sent = true).
  { intros ->.
    destruct (applyCredentials_cookies (url c) (initOfCall c) Hs) as [Hk Hh].
    fold sent in Hk, Hh. simpl in Hh.
    unfold carriesBearer, ambientCookies, authorization. rewrite Hk, Hh.
    simpl. split_and!; reflexivity. }
  split; [exact Hne | split; [exact He |]].
  destruct (decide (creds = "")) as [Hc | Hc].
  - destruct (He Hc) as (_ & _ & -> & _). reflexivity.
  - destruct (Hne Hc) as (_ & _ & _ & ->). apply andb_false_r.
Qed.

Lemma applyCredentials_one_mode_witness :
  let sent := applyCredentials (url Scripted.getBody) "secret"
                (initOfCall Scripted.getBody) in
  authorization sent = Some "Bearer secret" ∧ credentials sent = None
  ∧ carriesBearer sent = true ∧ ambientCookies sent = false.
Proof.
  refine (proj1 (applyCredentials_one_mode Scripted.getBody "secret" _) _).
  - reflexivity.
  - discriminate.
Defined.

End TransportFacts.

Section DriverFacts.
Import Transport.
Context {Net Prov T : Type}.
Variable cancellableFetchOk : Net → string → RequestInit → (exn + T) * Net.
Variable provider_get : Prov → string * Prov.
Variable provider_refresh : Prov → string * Prov.

#[local] Abbreviation attempt := (dvidAttempt cancellableFetchOk).
#[local] Abbreviation refreshCredentials := (refreshCredentials provider_refresh).
#[local] Abbreviation requestLoop := (dvidLoop cancellableFetchOk provider_refresh).

Lemma errorHandler_unauthorized (status : Z) :
  status = 401 ∨ status = 403 → errorHandler status = Returns "refresh".
Proof. intros [-> | ->]; reflexivity. Qed.

Lemma errorHandler_transient : errorHandler 504 = Returns "retry".
Proof. reflexivity. Qed.

Lemma errorHandler_fatal (status : Z) :
  status ≠ 401 → status ≠ 403 → status ≠ 504 →
  errorHandler status = Rethrows status.
Proof.
  intros H1 H3 H4. unfold errorHandler.
  destruct (Z.eqb_spec status 403); [contradiction |].
  destruct (Z.eqb_spec status 401); [contradiction |].
  destruct (Z.eqb_spec status 504); [contradiction |].
  reflexivity.
Qed.

Lemma attempt_trace (input : string) (init : RequestInit) (creds : string)
    (s s1 : @state Net Prov) (r : exn + T) :
  attempt input init creds s = (r, s1) →
  trace s1 = (trace s ++ [EvAttempt input (applyCredentials input creds init)])%list
  ∧ prov s1 = prov s.
Proof.
  unfold dvidAttempt, Transport.attempt.
  destruct (cancellableFetchOk _ _ _) as [r' n]. intros [= <- <-].
  simpl. auto.
Qed.

Lemma attempt_counts (input : string) (init : RequestInit) (creds : string)
    (s s1 : @state Net Prov) (r : exn + T) :
  attempt input init creds s = (r, s1) →
  refreshes s1 = refreshes s ∧ attempts s1 = S (attempts s).
Proof.
  intros H. apply attempt_trace in H as [Ht _].
  unfold refreshes, attempts. rewrite Ht, !List.filter_app, !length_app.
  simpl. lia.
Qed.

Lemma refreshCredentials_counts (s : @state Net Prov) :
  refreshes (snd (refreshCredentials s)) = S (refreshes s)
  ∧ attempts (snd (refreshCredentials s)) = attempts s
  ∧ net (snd (refreshCredentials s)) = net s.
Proof.
  unfold Transport.refreshCredentials.
  destruct (provider_refresh (prov s)) as [c p]. simpl.
  unfold refreshes, attempts. simpl.
  rewrite !List.filter_app, !length_app. simpl.
  split_and!; [lia | lia | reflexivity].
Qed.

Lemma requestLoop_refresh
    (fuel : nat) (input : string) (init : RequestInit) (creds : string)
    (s s1 : @state Net Prov) (status : Z) :
  attempt input init creds s = (inl (HttpError status), s1) →
  status = 401 ∨ status = 403 →
  requestLoop (S fuel) input init creds s
  = requestLoop fuel input init
      (fst (refreshCredentials s1)) (snd (refreshCredentials s1)).
Proof.
  intros Ha Hs. unfold dvidLoop, dvidAttempt in *. simpl.
  rewrite Ha, (errorHandler_unauthorized _ Hs). simpl.
  destruct (Transport.refreshCredentials provider_refresh s1); reflexivity.
Qed.

Lemma requestLoop_retry
    (fuel : nat) (input : string) (init : RequestInit) (creds : string)
    (s s1 : @state Net Prov) :
  attempt input init creds s = (inl (HttpError 504), s1) →
  requestLoop (S fuel) input init creds s
  = requestLoop fuel input init creds s1.
Proof.
  intros Ha. unfold dvidLoop, dvidAttempt in *. simpl. rewrite Ha.
  reflexivity.
Qed.

Lemma requestLoop_fatal
    (fuel : nat) (input : string) (init : RequestInit) (creds : string)
    (s s1 : @state Net Prov) (status : Z) :
  attempt input init creds s = (inl (HttpError status), s1) →
  status ≠ 401 → status ≠ 403 → status ≠ 504 →
  requestLoop (S fuel) input init creds s = (Rejected (HttpError status), s1).
Proof.
  intros Ha H1 H3 H4. unfold dvidLoop, dvidAttempt in *. simpl.
  rewrite Ha, (errorHandler_fatal _ H1 H3 H4). reflexivity.
Qed.

(** A 401 answered by a success after the refresh: the call resolves and
    exactly one refresh has been asked for. *)
Lemma unauthorized_then_success
    (fuel : nat) (input : string) (init : RequestInit) (creds : string)
    (s s1 s3 : @state Net Prov) (v : T) :
  attempt input init creds s = (inl (HttpError 401), s1) →
  attempt input init (fst (refreshCredentials s1)) (snd (refreshCredentials s1))
    = (inr v, s3) →
  requestLoop (S (S fuel)) input init creds s = (Resolved v, s3)
  ∧ refreshes s3 = S (refreshes s).
Proof.
  intros H1 H2.
  rewrite (requestLoop_refresh (S fuel) _ _ _ _ _ _ H1 (or_introl eq_refl)).
  pose proof H2 as H2'. unfold dvidAttempt in H2'.
  unfold dvidLoop. simpl. rewrite H2'. split; [reflexivity |].
  apply attempt_counts in H2 as [-> _].
  destruct (refreshCredentials_counts s1) as [-> _].
  apply attempt_counts in H1 as [-> _]. reflexivity.
Qed.

(** A 504 answered by a success: the call resolves without any refresh. *)
Lemma transient_then_success
    (fuel : nat) (input : string) (init : RequestInit) (creds : string)
    (s s1 s2 : @state Net Prov) (v : T) :
  attempt input init creds s = (inl (HttpError 504), s1) →
  attempt input init creds s1 = (inr v, s2) →
  requestLoop (S (S fuel)) input init creds s = (Resolved v, s2)
  ∧ refreshes s2 = refreshes s.
Proof.
  intros H1 H2.
  rewrite (requestLoop_retry (S fuel) _ _ _ _ _ H1).
  pose proof H2 as H2'. unfold dvidAttempt in H2'.
  unfold dvidLoop. simpl. rewrite H2'. split; [reflexivity |].
  apply attempt_counts in H2 as [-> _].
  apply attempt_counts in H1 as [-> _]. reflexivity.
Qed.

(** Every run of the loop that ends is a run of the classification, and
    its trace grows by the events of that run. *)
Lemma dvidLoop_classified (input : string) (init : RequestInit) (fuel : nat) :
  ∀ (creds : string) (s s' : @state Net Prov) (o : outcome T),
  requestLoop fuel input init creds s = (o, s') →
  o ≠ OutOfFuel →
  ∃ evs : list event,
    specClassified cancellableFetchOk provider_refresh input init
      creds (net s) (prov s) evs o (net s') (prov s')
    ∧ trace s' = (trace s ++ evs)%list.
Proof.
  induction fuel as [| fuel IH]; intros creds s s' o Hrun Hend.
  - unfold dvidLoop in Hrun. simpl in Hrun.
    injection Hrun as <- <-. contradiction.
  - destruct (attempt input init creds s) as [r s1] eqn:Ha.
    pose proof Ha as Hnet. unfold dvidAttempt, Transport.attempt in Hnet.
    destruct (cancellableFetchOk (net s) input
                (applyCredentials input creds init)) as [r' n1] eqn:Hfetch.
    injection Hnet as -> <-.
    destruct r as [e | v].
    + destruct e as [status | | msg | msg | msg].
      * destruct (decide (status = 401 ∨ status = 403)) as [Hs | Hs].
        { rewrite (requestLoop_refresh _ _ _ _ _ _ _ Ha Hs) in Hrun.
          unfold Transport.refreshCredentials in Hrun.
          destruct (provider_refresh _) as [creds' p'] eqn:Hp.
          simpl in Hrun, Hp.
          destruct (IH _ _ _ _ Hrun Hend) as (evs & Hc & Ht).
          simpl in Hc, Ht.
          eexists. split.
          - eapply on_unauthorized; eauto.
          - rewrite Ht, <- !app_assoc. reflexivity. }
        destruct (decide (status = 504)) as [-> | H4].
        { rewrite (requestLoop_retry _ _ _ _ _ _ Ha) in Hrun.
          destruct (IH _ _ _ _ Hrun Hend) as (evs & Hc & Ht).
          simpl in Hc, Ht.
          eexists. split.
          - eapply on_transient; eauto.
          - rewrite Ht, <- !app_assoc. reflexivity. }
        assert (status ≠ 401) as H1 by tauto.
        assert (status ≠ 403) as H3 by tauto.
        rewrite (requestLoop_fatal _ _ _ _ _ _ _ Ha H1 H3 H4) in Hrun.
        injection Hrun as <- <-. simpl.
        eexists. split; [| reflexivity].
        apply on_fatal; assumption.
      * unfold dvidLoop, dvidAttempt in *. simpl in Hrun. rewrite Ha in Hrun.
        injection Hrun as <- <-. simpl.
        eexists. split; [| reflexivity].
        apply on_error; [assumption | discriminate].
      * unfold dvidLoop, dvidAttempt in *. simpl in Hrun. rewrite Ha in Hrun.
        injection Hrun as <- <-. simpl.
        eexists. split; [| reflexivity].
        apply on_error; [assumption | discriminate].
      * unfold dvidLoop, dvidAttempt in *. simpl in Hrun. rewrite Ha in Hrun.
        injection Hrun as <- <-. simpl.
        eexists. split; [| reflexivity].
        apply on_error; [assumption | discriminate].
      * unfold dvidLoop, dvidAttempt in *. simpl in Hrun. rewrite Ha in Hrun.
        injection Hrun as <- <-. simpl.
        eexists. split; [| reflexivity].
        apply on_error; [assumption | discriminate].
    + unfold dvidLoop, dvidAttempt in *. simpl in Hrun. rewrite Ha in Hrun.
      injection Hrun as <- <-. simpl.
      eexists. split; [| reflexivity].
      apply on_success; assumption.
Qed.

(** Every run of the classification is the run of the loop, as soon as
    the fuel covers its events. *)
Lemma classified_dvidLoop (input : string) (init : RequestInit)
    (creds : string) (n n' : Net) (p p' : Prov) (evs : list event)
    (o : outcome T) :
  specClassified cancellableFetchOk provider_refresh input init
    creds n p evs o n' p' →
  ∀ (tr : list event) (fuel : nat),
  (length evs ≤ fuel)%nat →
  requestLoop fuel input init creds {| net := n; prov := p; trace := tr |}
  = (o, {| net := n'; prov := p'; trace := (tr ++ evs)%list |}).
Proof.
  induction 1 as [creds n n1 p v Hfetch
                 | creds creds' n n1 n2 p p' p2 status evs o Hfetch Hs Hp _ IH
                 | creds n n1 n2 p p2 evs o Hfetch _ IH
                 | creds n n1 p status Hfetch H1 H3 H4
                 | creds n n1 p e Hfetch He];
    intros tr fuel Hfuel;
    (destruct fuel as [| fuel]; [simpl in Hfuel; lia |]).
  - unfold dvidLoop. simpl. unfold Transport.attempt. simpl.
    rewrite Hfetch. reflexivity.
  - erewrite requestLoop_refresh; [| | exact Hs].
    2: { unfold dvidAttempt, Transport.attempt. simpl. rewrite Hfetch.
         reflexivity. }
    unfold Transport.refreshCredentials. simpl. rewrite Hp. simpl.
    unfold emit. simpl. rewrite IH by (simpl in Hfuel; lia).
    rewrite <- !app_assoc. reflexivity.
  - erewrite requestLoop_retry.
    2: { unfold dvidAttempt, Transport.attempt. simpl. rewrite Hfetch.
         reflexivity. }
    unfold emit. simpl. rewrite IH by (simpl in Hfuel; lia).
    rewrite <- !app_assoc. reflexivity.
  - erewrite requestLoop_fatal; [reflexivity | | exact H1 | exact H3 | exact H4].
    unfold dvidAttempt, Transport.attempt. simpl. rewrite Hfetch.
    reflexivity.
  - unfold dvidLoop. simpl. unfold Transport.attempt. simpl.
    rewrite Hfetch.
    destruct e as [status | | msg | msg | msg]; try reflexivity.
    exfalso. exact (He status eq_refl).
Qed.

(** C1: a call made through [fetchWithDVIDCredentials] treats every
    failure response by its status alone, as the classification says.
    After the provider has handed out its credential, a call that ends
    has made exactly the run of the classification: on 401 or 403 one
    refresh and then the same call again with the refreshed credential,
    on 504 the same call again with the credential it had and no refresh,
    on any other status the rejection with that error and no further
    attempt.  Conversely every run of the classification is what the call
    does, once the fuel covers its events. *)
Theorem fetchWithDVIDCredentials_classifies
    (input : string) (init : RequestInit) (s : @state Net Prov) :
  let creds := fst (provider_get (prov s)) in
  let p0 := snd (provider_get (prov s)) in
  (∀ (fuel : nat) (o : outcome T) (s' : @state Net Prov),
     fetchWithDVIDCredentials cancellableFetchOk provider_get provider_refresh
       fuel input init s = (o, s') →
     o ≠ OutOfFuel →
     ∃ evs : list event,
       specClassified cancellableFetchOk provider_refresh input init
         creds (net s) p0 evs o (net s') (prov s')
       ∧ trace s' = (trace s ++ EvGet :: evs)%list)
  ∧ (∀ (evs : list event) (o : outcome T) (n' : Net) (p' : Prov) (fuel : nat),
     specClassified cancellableFetchOk provider_refresh input init
       creds (net s) p0 evs o n' p' →
     (length evs ≤ fuel)%nat →
     fetchWithDVIDCredentials cancellableFetchOk provider_get provider_refresh
       fuel input init s
     = (o, {| net := n'; prov := p';
              trace := (trace s ++ EvGet :: evs)%list |})).
Proof.
  intros creds p0. subst creds p0. split.
  - intros fuel o s' Hrun Hend.
    unfold fetchWithDVIDCredentials, fetchWithCredentials, getCredentials
      in Hrun.
    destruct (provider_get (prov s)) as [creds p0]. simpl.
    destruct (dvidLoop_classified _ _ _ _ _ _ _ Hrun Hend) as (evs & Hc & Ht).
    simpl in Hc, Ht. exists evs. split; [exact Hc |].
    rewrite Ht, <- app_assoc. reflexivity.
  - intros evs o n' p' fuel Hc Hfuel.
    unfold fetchWithDVIDCredentials, fetchWithCredentials, getCredentials.
    destruct (provider_get (prov s)) as [creds p0]. simpl in Hc.
    unfold emit. simpl.
    pose proof (classified_dvidLoop _ _ _ _ _ _ _ _ _ Hc
                  (trace s ++ [EvGet])%list fuel Hfuel) as Hrun.
    unfold dvidLoop in Hrun. rewrite Hrun, <- app_assoc. reflexivity.
Qed.

End DriverFacts.

Lemma fetchWithDVIDCredentials_classifies_witness :
  Scripted.run 3 Scripted.getBody [inl (HttpError 401); inr "ok"]
  = (Resolved "ok",
     {| Transport.net := [];
        Transport.prov := 1%nat;
        Transport.trace :=
          [Transport.EvGet;
           Transport.EvAttempt (Transport.url Scripted.getBody)
             (Transport.applyCredentials (Transport.url Scripted.getBody)
                "token0" (Transport.initOfCall Scripted.getBody));
           Transport.EvRefresh;
           Transport.EvAttempt (Transport.url Scripted.getBody)
             (Transport.applyCredentials (Transport.url Scripted.getBody)
                "token1" (Transport.initOfCall Scripted.getBody))] |}).
Proof.
  refine (proj2 (fetchWithDVIDCredentials_classifies
                   Scripted.cancellableFetchOk Scripted.provider_get
                   Scripted.provider_refresh
                   (Transport.url Scripted.getBody)
                   (Transport.initOfCall Scripted.getBody)
                   (Scripted.start [inl (HttpError 401); inr "ok"]))
                _ (Resolved "ok") [] 1%nat 3%nat _ _).
  - eapply Transport.on_unauthorized with (creds' := "token1").
    + reflexivity.
    + left. reflexivity.
    + reflexivity.
    + apply Transport.on_success. reflexivity.
  - simpl. lia.
Defined.

Example unauthorized_once :
  fst (Scripted.run 5 Scripted.getBody [inl (HttpError 401); inr "ok"])
    = Resolved "ok"
  ∧ Transport.refreshes
      (snd (Scripted.run 5 Scripted.getBody [inl (HttpError 401); inr "ok"]))
    = 1%nat.
Proof. split; vm_compute; reflexivity. Qed.

Example transient_no_refresh :
  fst (Scripted.run 5 Scripted.getBody [inl (HttpError 504); inr "ok"])
    = Resolved "ok"
  ∧ Transport.refreshes
      (snd (Scripted.run 5 Scripted.getBody [inl (HttpError 504); inr "ok"]))
    = 0%nat.
Proof. split; vm_compute; reflexivity. Qed.

Example fatal_no_retry :
  fst (Scripted.run 5 Scripted.getBody [inl (HttpError 500); inr "ok"])
    = Rejected (HttpError 500)
  ∧ Transport.attempts
      (snd (Scripted.run 5 Scripted.getBody [inl (HttpError 500); inr "ok"]))
    = 1%nat.
Proof. split; vm_compute; reflexivity. Qed.

(* ================================================================== *)
(** * Properties of the merge-graph resolver *)

Section ResolverFacts.
Import Json Backend.
Context {World : Type}.
Variable serveJson : World → string → result json * World.
Variable serveArrayBuffer : World → string → result ArrayBuffer * World.

#[local] Abbreviation St := (@St World).
#[local] Abbreviation M := (@M World).
#[local] Abbreviation requestJson := (requestJson serveJson).
#[local] Abbreviation requestArrayBuffer := (requestArrayBuffer serveArrayBuffer).
#[local] Abbreviation tryPushLeaf := (tryPushLeaf serveArrayBuffer).
#[local] Abbreviation mergeStep := (mergeStep serveJson serveArrayBuffer).
#[local] Abbreviation downloadMergeFragment :=
  (downloadMergeFragment serveJson serveArrayBuffer).
#[local] Abbreviation served := (served serveJson serveArrayBuffer).
#[local] Abbreviation servedAll := (servedAll serveJson serveArrayBuffer).
#[local] Abbreviation walked := (walked serveJson serveArrayBuffer).

Lemma requestJson_run (url : string) (s : St) (r : result json) (w : World) :
  serveJson (world s) url = (r, w) →
  requestJson url s
  = lift r {| world := w; log := (log s ++ [Request url Transport.RtJson])%list |}.
Proof. intros H. unfold Backend.requestJson. rewrite H. reflexivity. Qed.

Lemma requestArrayBuffer_run (url : string) (s : St)
    (r : result ArrayBuffer) (w : World) :
  serveArrayBuffer (world s) url = (r, w) →
  requestArrayBuffer url s
  = lift r {| world := w;
              log := (log s ++ [Request url Transport.RtArrayBuffer])%list |}.
Proof. intros H. unfold Backend.requestArrayBuffer. rewrite H. reflexivity. Qed.

(** The guarded leaf fetch always resolves: with the buffer pushed, or
    with [data] as it was and the error on the console. *)
Lemma tryPushLeaf_run (meshUrl : string) (data : list ArrayBuffer) (s : St)
    (r : result ArrayBuffer) (w : World) :
  serveArrayBuffer (world s) meshUrl = (r, w) →
  tryPushLeaf meshUrl data s
  = (Resolved (data ++ pushed r)%list,
     {| world := w; log := (log s ++ leafLog meshUrl r)%list |}).
Proof.
  intros H. unfold Backend.tryPushLeaf, catch_, bind.
  rewrite (requestArrayBuffer_run _ _ _ _ H).
  destruct r as [e | b]; simpl.
  - rewrite app_nil_r, <- app_assoc. reflexivity.
  - reflexivity.
Qed.

Lemma mergeStep_master
    (recurse : string → json → json → M (list ArrayBuffer))
    (base : string) (master key : json) (data : list ArrayBuffer) (s : St)
    (r : result ArrayBuffer) (w : World) :
  String_ master = String_ key →
  serveArrayBuffer (world s) (leafUrl base key) = (r, w) →
  mergeStep recurse base master key data s
  = (Resolved (data ++ pushed r)%list,
     {| world := w; log := (log s ++ leafLog (leafUrl base key) r)%list |}).
Proof.
  intros Hm H. unfold Backend.mergeStep.
  rewrite Hm, String.eqb_refl. apply tryPushLeaf_run, H.
Qed.

Lemma eqb_ne (a b : string) : a ≠ b → String.eqb a b = false.
Proof. intros H. apply String.eqb_neq, H. Qed.

(** The [.merge] fetch fails: the handler fetches the leaf of the key. *)
Lemma mergeStep_plain
    (recurse : string → json → json → M (list ArrayBuffer))
    (base : string) (master key : json) (data : list ArrayBuffer) (s : St)
    (e : exn) (w1 : World) (r : result ArrayBuffer) (w2 : World) :
  String_ master ≠ String_ key →
  serveJson (world s) (mergeUrl base key) = (inl e, w1) →
  serveArrayBuffer w1 (leafUrl base key) = (r, w2) →
  mergeStep recurse base master key data s
  = (Resolved (data ++ pushed r)%list,
     {| world := w2;
        log := (log s ++ Request (mergeUrl base key) Transport.RtJson
                      :: leafLog (leafUrl base key) r)%list |}).
Proof.
  intros Hm Hj Hb. unfold Backend.mergeStep.
  rewrite (eqb_ne _ _ Hm). unfold catch_ at 1, bind at 1.
  fold (mergeUrl base key). rewrite (requestJson_run _ _ _ _ Hj). simpl.
  fold (leafUrl base key).
  erewrite tryPushLeaf_run by (simpl; exact Hb). simpl.
  rewrite <- app_assoc. reflexivity.
Qed.

(** The [.merge] document arrives and the recursive call resolves. *)
Lemma mergeStep_merged
    (recurse : string → json → json → M (list ArrayBuffer))
    (base : string) (master key : json) (data : list ArrayBuffer) (s : St)
    (doc : json) (w1 : World) (result : list ArrayBuffer) (s2 : St) :
  String_ master ≠ String_ key →
  serveJson (world s) (mergeUrl base key) = (inr doc, w1) →
  recurse base doc key
    {| world := w1;
       log := (log s ++ [Request (mergeUrl base key) Transport.RtJson])%list |}
    = (Resolved result, s2) →
  mergeStep recurse base master key data s
  = (Resolved (data ++ result)%list,
     {| world := world s2;
        log := (log s2 ++ [ConsoleLog (LogNum (length (data ++ result)%list))])%list |}).
Proof.
  intros Hm Hj Hr. unfold Backend.mergeStep.
  rewrite (eqb_ne _ _ Hm). unfold catch_ at 1, bind at 1.
  fold (mergeUrl base key). rewrite (requestJson_run _ _ _ _ Hj). simpl.
  unfold bind at 1. rewrite Hr. reflexivity.
Qed.

(** The [.merge] document arrives but the recursive call rejects: the
    handler fetches the leaf of the key. *)
Lemma mergeStep_rejected
    (recurse : string → json → json → M (list ArrayBuffer))
    (base : string) (master key : json) (data : list ArrayBuffer) (s : St)
    (doc : json) (w1 : World) (e : exn) (s2 : St)
    (r : result ArrayBuffer) (w2 : World) :
  String_ master ≠ String_ key →
  serveJson (world s) (mergeUrl base key) = (inr doc, w1) →
  recurse base doc key
    {| world := w1;
       log := (log s ++ [Request (mergeUrl base key) Transport.RtJson])%list |}
    = (Rejected e, s2) →
  serveArrayBuffer (world s2) (leafUrl base key) = (r, w2) →
  mergeStep recurse base master key data s
  = (Resolved (data ++ pushed r)%list,
     {| world := w2; log := (log s2 ++ leafLog (leafUrl base key) r)%list |}).
Proof.
  intros Hm Hj Hr Hb. unfold Backend.mergeStep.
  rewrite (eqb_ne _ _ Hm). unfold catch_ at 1, bind at 1.
  fold (mergeUrl base key). rewrite (requestJson_run _ _ _ _ Hj). simpl.
  unfold bind at 1. rewrite Hr.
  fold (leafUrl base key). apply tryPushLeaf_run, Hb.
Qed.

Lemma mergeStep_fuel
    (recurse : string → json → json → M (list ArrayBuffer))
    (base : string) (master key : json) (data : list ArrayBuffer) (s : St)
    (doc : json) (w1 : World) (s2 : St) :
  String_ master ≠ String_ key →
  serveJson (world s) (mergeUrl base key) = (inr doc, w1) →
  recurse base doc key
    {| world := w1;
       log := (log s ++ [Request (mergeUrl base key) Transport.RtJson])%list |}
    = (OutOfFuel, s2) →
  mergeStep recurse base master key data s = (OutOfFuel, s2).
Proof.
  intros Hm Hj Hr. unfold Backend.mergeStep.
  rewrite (eqb_ne _ _ Hm). unfold catch_ at 1, bind at 1.
  fold (mergeUrl base key). rewrite (requestJson_run _ _ _ _ Hj). simpl.
  unfold bind at 1. rewrite Hr. reflexivity.
Qed.

(** A step of the loop never rejects, and it keeps what [data] held. *)
Lemma mergeStep_outcome
    (recurse : string → json → json → M (list ArrayBuffer))
    (base : string) (master key : json) (data : list ArrayBuffer) (s : St) :
  fst (mergeStep recurse base master key data s) = OutOfFuel
  ∨ ∃ l, fst (mergeStep recurse base master key data s)
         = Resolved (data ++ l)%list.
Proof.
  destruct (decide (String_ master = String_ key)) as [Hm | Hm].
  - destruct (serveArrayBuffer (world s) (leafUrl base key)) as [r w] eqn:Hb.
    rewrite (mergeStep_master _ _ _ _ _ _ _ _ Hm Hb). eauto.
  - destruct (serveJson (world s) (mergeUrl base key)) as [[e | doc] w1] eqn:Hj.
    + destruct (serveArrayBuffer w1 (leafUrl base key)) as [r w2] eqn:Hb.
      rewrite (mergeStep_plain _ _ _ _ _ _ _ _ _ _ Hm Hj Hb). eauto.
    + destruct (recurse base doc key
        {| world := w1;
           log := (log s ++ [Request (mergeUrl base key) Transport.RtJson])%list |})
        as [[| result | e] s2] eqn:Hr.
      * rewrite (mergeStep_fuel _ _ _ _ _ _ _ _ _ Hm Hj Hr). auto.
      * rewrite (mergeStep_merged _ _ _ _ _ _ _ _ _ _ Hm Hj Hr). eauto.
      * destruct (serveArrayBuffer (world s2) (leafUrl base key))
          as [r w2] eqn:Hb.
        rewrite (mergeStep_rejected _ _ _ _ _ _ _ _ _ _ _ _ Hm Hj Hr Hb). eauto.
Qed.

(** Hence the loop over the keys never rejects either, whatever the
    network does, and its result extends [data]. *)
Lemma forOf_mergeStep_outcome
    (recurse : string → json → json → M (list ArrayBuffer))
    (base : string) (master : json) (keys : list json) :
  ∀ (data : list ArrayBuffer) (s : St),
    fst (forOf keys (mergeStep recurse base master) data s) = OutOfFuel
    ∨ ∃ l, fst (forOf keys (mergeStep recurse base master) data s)
           = Resolved (data ++ l)%list.
Proof.
  induction keys as [| key keys IH]; intros data s; simpl.
  - right. exists []. rewrite app_nil_r. reflexivity.
  - unfold bind.
    destruct (mergeStep_outcome recurse base master key data s) as [H | [l H]];
      destruct (mergeStep recurse base master key data s) as [o s1];
      simpl in H; subst o; [auto |].
    destruct (IH (data ++ l)%list s1) as [H | [l' H]]; [auto |].
    right. exists (l ++ l')%list. rewrite H, app_assoc. reflexivity.
Qed.

(** [downloadMergeFragment] rejects only at the loop header, when [keys]
    cannot be iterated, before any request is made. *)
Lemma downloadMergeFragment_rejects
    (fuel : nat) (base : string) (keys master : json) (s s' : St) (e : exn) :
  downloadMergeFragment fuel base keys master s = (Rejected e, s') →
  iterate keys = None ∧ s' = s ∧ e = TypeError "keys is not iterable".
Proof.
  destruct (iterate keys) as [ks |] eqn:Hk.
  - destruct fuel as [| fuel]; simpl; rewrite Hk.
    + discriminate.
    + intros H.
      destruct (forOf_mergeStep_outcome (downloadMergeFragment fuel)
                  base master ks [] s) as [Ho | [l Ho]];
        rewrite H in Ho; discriminate.
  - destruct fuel; simpl; rewrite Hk; unfold throw; intros [= <- <-]; auto.
Qed.

Lemma downloadMergeFragment_not_iterable
    (fuel : nat) (base : string) (keys master : json) (s : St) :
  iterate keys = None →
  downloadMergeFragment fuel base keys master s
  = (Rejected (TypeError "keys is not iterable"), s).
Proof. intros H. destruct fuel; simpl; rewrite H; reflexivity. Qed.

Lemma forOf_app {A B : Type} (body : A → B → M B) (xs ys : list A) :
  ∀ (acc : B) (s : St),
    forOf (xs ++ ys) body acc s = bind (forOf xs body acc) (forOf ys body) s.
Proof.
  induction xs as [| x xs IH]; intros acc s; simpl.
  - reflexivity.
  - unfold bind. destruct (body x acc s) as [[| b | e] s1];
      [reflexivity | apply IH | reflexivity].
Qed.

(** The loop at the moment it reaches [key], the keys before it having
    left [data] and the state [s1]. *)
Lemma downloadMergeFragment_reaches
    (fuel : nat) (base : string) (keys master : json)
    (before : list json) (key : json) (rest : list json)
    (s s1 : St) (data : list ArrayBuffer) :
  iterate keys = Some (before ++ key :: rest)%list →
  forOf before (mergeStep (downloadMergeFragment fuel) base master) [] s
    = (Resolved data, s1) →
  downloadMergeFragment (S fuel) base keys master s
  = forOf (key :: rest) (mergeStep (downloadMergeFragment fuel) base master)
      data s1.
Proof.
  intros Hk Hb. simpl. rewrite Hk, forOf_app. unfold bind at 1.
  rewrite Hb. reflexivity.
Qed.

Lemma downloadMergeFragment_never_rejects
    (fuel : nat) (base : string) (keys master : json) (ks : list json)
    (s : St) :
  iterate keys = Some ks →
  ∀ e s', downloadMergeFragment fuel base keys master s ≠ (Rejected e, s').
Proof.
  intros Hk e s' H. apply downloadMergeFragment_rejects in H as [H _].
  congruence.
Qed.

Lemma dfs_fetched (r : result ArrayBuffer) : dfs (Leaf (fetched r)) = pushed r.
Proof. destruct r; reflexivity. Qed.

Lemma heights_cons (g : graph) (gs : list graph) :
  heights (g :: gs) = Nat.max (height g) (heights gs).
Proof. reflexivity. Qed.

(** Every graph the server can present is walked to the end, given fuel
    for its height, and yields its leaves in depth-first order. *)
Lemma served_run :
  ∀ w base key master g w',
    served w base key master g w' →
    ∀ fuel data lg, (height g ≤ fuel)%nat →
      ∃ lg', mergeStep (downloadMergeFragment fuel) base master key data
               {| world := w; log := lg |}
             = (Resolved (data ++ dfs g)%list, {| world := w'; log := lg' |}).
Proof.
  apply (served_mut serveJson serveArrayBuffer
    (λ w base key master g w' _,
       ∀ fuel data lg, (height g ≤ fuel)%nat →
         ∃ lg', mergeStep (downloadMergeFragment fuel) base master key data
                  {| world := w; log := lg |}
                = (Resolved (data ++ dfs g)%list, {| world := w'; log := lg' |}))
    (λ w base ks master gs w' _,
       ∀ fuel data lg, (heights gs ≤ fuel)%nat →
         ∃ lg', forOf ks (mergeStep (downloadMergeFragment fuel) base master)
                  data {| world := w; log := lg |}
                = (Resolved (data ++ flat_map dfs gs)%list,
                   {| world := w'; log := lg' |}))).
  - intros w base key master r w' Hm Hb fuel data lg _.
    eexists. rewrite dfs_fetched. apply mergeStep_master; [exact Hm | exact Hb].
  - intros w base key master doc ks w1 gs w2 Hm Hj Hk _ IH fuel data lg Hh.
    simpl in Hh. destruct fuel as [| fuel]; [lia |].
    destruct (IH fuel [] (lg ++ [Request (mergeUrl base key) Transport.RtJson])%list)
      as [lg' Hrun]; [fold (heights gs) in Hh; lia |].
    assert (Hr : downloadMergeFragment (S fuel) base doc key
                   {| world := w1;
                      log := (lg ++ [Request (mergeUrl base key)
                                       Transport.RtJson])%list |}
                 = (Resolved (flat_map dfs gs), {| world := w2; log := lg' |}))
      by (simpl; rewrite Hk; exact Hrun).
    eexists.
    rewrite (mergeStep_merged _ _ _ _ _ {| world := w; log := lg |}
               _ _ _ _ Hm Hj Hr).
    reflexivity.
  - intros w base key master doc w1 r w2 Hm Hj Hk Hb fuel data lg _.
    eexists. rewrite dfs_fetched.
    apply (mergeStep_rejected _ _ _ _ _ {| world := w; log := lg |}
             doc w1 _ _ r w2 Hm Hj
             (downloadMergeFragment_not_iterable fuel base doc key _ Hk) Hb).
  - intros w base key master e w1 r w2 Hm Hj Hb fuel data lg _.
    eexists. rewrite dfs_fetched.
    eapply mergeStep_plain; [exact Hm | exact Hj | exact Hb].
  - intros w base master fuel data lg _. eexists. simpl.
    rewrite app_nil_r. reflexivity.
  - intros w base key keys master g w1 gs w2 _ IHg _ IHgs fuel data lg Hh.
    rewrite heights_cons in Hh.
    destruct (IHg fuel data lg) as [lg1 H1]; [lia |].
    destruct (IHgs fuel (data ++ dfs g)%list lg1) as [lg2 H2]; [lia |].
    exists lg2. simpl. unfold bind at 1. rewrite H1, H2, <- app_assoc.
    reflexivity.
Qed.

Lemma mergeStep_served (fuel : nat) :
  walked fuel →
  ∀ base master key data (s : St) out s1,
    mergeStep (downloadMergeFragment fuel) base master key data s
      = (Resolved out, s1) →
    ∃ g, served (world s) base key master g (world s1)
         ∧ out = (data ++ dfs g)%list.
Proof.
  intros IH base master key data s out s1 H.
  destruct (decide (String_ master = String_ key)) as [Hm | Hm].
  - destruct (serveArrayBuffer (world s) (leafUrl base key)) as [r w] eqn:Hb.
    rewrite (mergeStep_master _ _ _ _ _ _ _ _ Hm Hb) in H.
    injection H as <- <-. exists (Leaf (fetched r)).
    rewrite dfs_fetched. split; [| reflexivity].
    apply served_master; assumption.
  - destruct (serveJson (world s) (mergeUrl base key)) as [[e | doc] w1] eqn:Hj.
    + destruct (serveArrayBuffer w1 (leafUrl base key)) as [r w2] eqn:Hb.
      rewrite (mergeStep_plain _ _ _ _ _ _ _ _ _ _ Hm Hj Hb) in H.
      injection H as <- <-. exists (Leaf (fetched r)).
      rewrite dfs_fetched. split; [| reflexivity].
      eapply served_plain; eassumption.
    + destruct (downloadMergeFragment fuel base doc key
        {| world := w1;
           log := (log s ++ [Request (mergeUrl base key) Transport.RtJson])%list |})
        as [[| result | e] s2] eqn:Hr.
      * rewrite (mergeStep_fuel _ _ _ _ _ _ _ _ _ Hm Hj Hr) in H. discriminate.
      * rewrite (mergeStep_merged _ _ _ _ _ _ _ _ _ _ Hm Hj Hr) in H.
        injection H as <- <-.
        destruct (IH _ _ _ _ _ _ Hr) as (ks & gs & Hk & Hs & ->).
        exists (Merge gs). split; [| reflexivity].
        eapply served_merge; eassumption.
      * destruct (downloadMergeFragment_rejects _ _ _ _ _ _ _ Hr)
          as (Hk & -> & _).
        destruct (serveArrayBuffer w1 (leafUrl base key)) as [r w2] eqn:Hb.
        rewrite (mergeStep_rejected _ _ _ _ _ _ _ _ _ _ _ _ Hm Hj Hr Hb) in H.
        injection H as <- <-. exists (Leaf (fetched r)).
        rewrite dfs_fetched. split; [| reflexivity].
        eapply served_not_iterable; eassumption.
Qed.

Lemma forOf_served (fuel : nat) :
  walked fuel →
  ∀ base master ks data (s : St) out s',
    forOf ks (mergeStep (downloadMergeFragment fuel) base master) data s
      = (Resolved out, s') →
    ∃ gs, servedAll (world s) base ks master gs (world s')
          ∧ out = (data ++ flat_map dfs gs)%list.
Proof.
  intros IH base master ks.
  induction ks as [| key ks IHks]; intros data s out s' H; simpl in H.
  - injection H as <- <-. exists []. rewrite app_nil_r.
    split; [constructor | reflexivity].
  - unfold bind in H.
    destruct (mergeStep (downloadMergeFragment fuel) base master key data s)
      as [[| d1 | e] s1] eqn:H1; try discriminate.
    destruct (mergeStep_served fuel IH _ _ _ _ _ _ _ H1) as (g & Hg & ->).
    destruct (IHks _ _ _ _ H) as (gs & Hgs & ->).
    exists (g :: gs). simpl. rewrite app_assoc. split; [| reflexivity].
    econstructor; eassumption.
Qed.

Lemma downloadMergeFragment_walked (fuel : nat) : walked fuel.
Proof.
  induction fuel as [| fuel IH]; intros base keys master s leaves s' H.
  - simpl in H. destruct (iterate keys); discriminate.
  - simpl in H. destruct (iterate keys) as [ks |] eqn:Hk; [| discriminate].
    destruct (forOf_served fuel IH _ _ _ _ _ _ _ H) as (gs & Hgs & ->).
    exists ks, gs. auto.
Qed.

Lemma servedAll_run :
  ∀ w base ks master gs w',
    servedAll w base ks master gs w' →
    ∀ fuel data lg, (heights gs ≤ fuel)%nat →
      ∃ lg', forOf ks (mergeStep (downloadMergeFragment fuel) base master)
               data {| world := w; log := lg |}
             = (Resolved (data ++ flat_map dfs gs)%list,
                {| world := w'; log := lg' |}).
Proof.
  induction 1 as [w base master | w base key keys master g w1 gs w2 Hg _ IH];
    intros fuel data lg Hh.
  - eexists. simpl. rewrite app_nil_r. reflexivity.
  - rewrite heights_cons in Hh.
    destruct (served_run _ _ _ _ _ _ Hg fuel data lg) as [lg1 H1]; [lia |].
    destruct (IH fuel (data ++ dfs g)%list lg1) as [lg2 H2]; [lia |].
    exists lg2. simpl. unfold bind at 1. rewrite H1, H2, <- app_assoc.
    reflexivity.
Qed.

(** C6: the list a resolve call returns holds the terminal leaves in
    depth-first, left-to-right order of the merge graph the server
    presented.  Whenever the call resolves, the server has served a list of
    graphs for the keys, in declared order and one after the other, and
    the result is their leaves in that order; and every served graph is
    walked to its end with this result once the fuel exceeds its
    height. *)
Theorem leaves_in_depth_first_order :
  (∀ fuel base keys master (s : St) leaves s',
     downloadMergeFragment fuel base keys master s = (Resolved leaves, s') →
     ∃ ks gs, iterate keys = Some ks
              ∧ servedAll (world s) base ks master gs (world s')
              ∧ leaves = flat_map dfs gs)
  ∧ (∀ base keys ks master gs w w' fuel lg,
       iterate keys = Some ks →
       servedAll w base ks master gs w' →
       (heights gs < fuel)%nat →
       ∃ lg', downloadMergeFragment fuel base keys master
                {| world := w; log := lg |}
              = (Resolved (flat_map dfs gs), {| world := w'; log := lg' |})).
Proof.
  split.
  - intros fuel. apply downloadMergeFragment_walked.
  - intros base keys ks master gs w w' fuel lg Hk Hs Hh.
    destruct fuel as [| fuel]; [lia |].
    destruct (servedAll_run _ _ _ _ _ _ Hs fuel [] lg) as [lg' H]; [lia |].
    exists lg'. simpl. rewrite Hk. exact H.
Qed.

(** C2: when the [.merge] fetch of a child key other than the master
    fails, the leaf of that key is fetched instead; its bytes are pushed
    if it arrives, nothing is pushed if it fails too, and in both cases
    the loop goes on with the keys that follow, keeping what the keys
    before have pushed.  The call does not reject. *)
Theorem merge_failure_falls_back_to_leaf
    (fuel : nat) (base : string) (keys master : json)
    (before : list json) (key : json) (rest : list json)
    (s s1 : St) (data : list ArrayBuffer)
    (e : exn) (w1 : World) (r : result ArrayBuffer) (w2 : World) :
  iterate keys = Some (before ++ key :: rest)%list →
  forOf before (mergeStep (downloadMergeFragment fuel) base master) [] s
    = (Resolved data, s1) →
  String_ master ≠ String_ key →
  serveJson (world s1) (mergeUrl base key) = (inl e, w1) →
  serveArrayBuffer w1 (leafUrl base key) = (r, w2) →
  downloadMergeFragment (S fuel) base keys master s
  = forOf rest (mergeStep (downloadMergeFragment fuel) base master)
      (data ++ pushed r)%list
      {| world := w2;
         log := (log s1 ++ Request (mergeUrl base key) Transport.RtJson
                        :: leafLog (leafUrl base key) r)%list |}
  ∧ (∀ b, r = inr b → pushed r = [b])
  ∧ (∀ e', r = inl e' → pushed r = [])
  ∧ (∀ e' s', downloadMergeFragment (S fuel) base keys master s
              ≠ (Rejected e', s'))
  ∧ (∀ leaves s',
       downloadMergeFragment (S fuel) base keys master s
         = (Resolved leaves, s') →
       ∃ l, leaves = (data ++ pushed r ++ l)%list).
Proof.
  intros Hk Hb Hm Hj Hl.
  assert (Heq : downloadMergeFragment (S fuel) base keys master s
    = forOf rest (mergeStep (downloadMergeFragment fuel) base master)
        (data ++ pushed r)%list
        {| world := w2;
           log := (log s1 ++ Request (mergeUrl base key) Transport.RtJson
                          :: leafLog (leafUrl base key) r)%list |}).
  { rewrite (downloadMergeFragment_reaches _ _ _ _ _ _ _ _ _ _ Hk Hb).
    simpl. unfold bind at 1.
    rewrite (mergeStep_plain _ _ _ _ _ _ _ _ _ _ Hm Hj Hl). reflexivity. }
  split_and!.
  - exact Heq.
  - intros b ->. reflexivity.
  - intros e' ->. reflexivity.
  - eapply downloadMergeFragment_never_rejects, Hk.
  - intros leaves s' H. rewrite Heq in H.
    destruct (forOf_mergeStep_outcome (downloadMergeFragment fuel) base master
                rest (data ++ pushed r)%list
                {| world := w2;
                   log := (log s1 ++ Request (mergeUrl base key) Transport.RtJson
                                  :: leafLog (leafUrl base key) r)%list |})
      as [Ho | [l Ho]]; rewrite H in Ho; simpl in Ho; [discriminate |].
    injection Ho as ->. exists l. rewrite app_assoc. reflexivity.
Qed.

(** C4, as the code has it: for a key equal to the master key the leaf is
    fetched directly at the leaf URL of the key.  If it arrives, the key
    contributes exactly that one buffer.  If the fetch fails, the error is
    written to the console, the key contributes nothing, and the loop goes
    on with the keys that follow: the call does not reject. *)
Theorem master_leaf_fetched_directly
    (fuel : nat) (base : string) (keys master : json)
    (before : list json) (key : json) (rest : list json)
    (s s1 : St) (data : list ArrayBuffer)
    (r : result ArrayBuffer) (w1 : World) :
  iterate keys = Some (before ++ key :: rest)%list →
  forOf before (mergeStep (downloadMergeFragment fuel) base master) [] s
    = (Resolved data, s1) →
  String_ master = String_ key →
  serveArrayBuffer (world s1) (leafUrl base key) = (r, w1) →
  downloadMergeFragment (S fuel) base keys master s
  = forOf rest (mergeStep (downloadMergeFragment fuel) base master)
      (data ++ pushed r)%list
      {| world := w1; log := (log s1 ++ leafLog (leafUrl base key) r)%list |}
  ∧ leafUrl base key = ((base ++ "/" ++ String_ key) ++ ".ngmesh")%string
  ∧ (∀ b, r = inr b →
       pushed r = [b]
       ∧ leafLog (leafUrl base key) r
         = [Request (leafUrl base key) Transport.RtArrayBuffer])
  ∧ (∀ e, r = inl e →
       pushed r = []
       ∧ leafLog (leafUrl base key) r
         = [Request (leafUrl base key) Transport.RtArrayBuffer;
            ConsoleLog (LogExn e)])
  ∧ (∀ e s', downloadMergeFragment (S fuel) base keys master s
             ≠ (Rejected e, s')).
Proof.
  intros Hk Hb Hm Hl. split_and!.
  - rewrite (downloadMergeFragment_reaches _ _ _ _ _ _ _ _ _ _ Hk Hb).
    simpl. unfold bind at 1.
    rewrite (mergeStep_master _ _ _ _ _ _ _ _ Hm Hl). reflexivity.
  - reflexivity.
  - intros b ->. auto.
  - intros e ->. auto.
  - eapply downloadMergeFragment_never_rejects, Hk.
Qed.

(** A merge document that lists the master key alone resolves to exactly
    one leaf, the bytes of the master. *)
Lemma single_master_leaf
    (fuel : nat) (base : string) (master key : json) (s : St)
    (b : ArrayBuffer) (w1 : World) :
  String_ master = String_ key →
  serveArrayBuffer (world s) (leafUrl base key) = (inr b, w1) →
  fst (downloadMergeFragment (S fuel) base (JArr [key]) master s)
  = Resolved [b].
Proof.
  intros Hm Hl. simpl. unfold bind.
  rewrite (mergeStep_master _ _ _ _ _ _ _ _ Hm Hl). reflexivity.
Qed.

End ResolverFacts.

(* ================================================================== *)
(** * Properties of the fragment download *)

Section FragmentFacts.
Import Json Backend.
Context {World MeshData Chunk : Type}.
Variable serveJson : World → string → result json * World.
Variable serveArrayBuffer : World → string → result ArrayBuffer * World.
Variable decodeTriangleVertexPositionsAndIndices :
  ArrayBuffer → Endianness → Z → Z → result MeshData.
Variable decodeTriangleVertexPositionsAndIndicesM :
  list ArrayBuffer → Endianness → Z → list Z → result MeshData.
Variable assignMeshFragmentData : Chunk → MeshData → result Chunk.

#[local] Abbreviation St := (@St World).
#[local] Abbreviation primaryPath :=
  (primaryPath serveJson serveArrayBuffer
     decodeTriangleVertexPositionsAndIndicesM assignMeshFragmentData).
#[local] Abbreviation fallbackPath :=
  (fallbackPath serveArrayBuffer
     decodeTriangleVertexPositionsAndIndices assignMeshFragmentData).
#[local] Abbreviation downloadFragment :=
  (downloadFragment serveJson serveArrayBuffer
     decodeTriangleVertexPositionsAndIndices
     decodeTriangleVertexPositionsAndIndicesM assignMeshFragmentData).
#[local] Abbreviation decodeFragmentChunk :=
  (decodeFragmentChunk decodeTriangleVertexPositionsAndIndices
     assignMeshFragmentData).

Lemma downloadFragment_primary
    (fuel : nat) (p : parameters) (chunk : Chunk) (fragmentId : string)
    (s s' : St) (c : Chunk) :
  primaryPath fuel p chunk fragmentId s = (Resolved c, s') →
  downloadFragment fuel p chunk fragmentId s = (Resolved c, s').
Proof.
  intros H. unfold Backend.downloadFragment, catch_. rewrite H. reflexivity.
Qed.

Lemma downloadFragment_catches
    (fuel : nat) (p : parameters) (chunk : Chunk) (fragmentId : string)
    (s s' : St) (e : exn) :
  primaryPath fuel p chunk fragmentId s = (Rejected e, s') →
  downloadFragment fuel p chunk fragmentId s
  = fallbackPath p chunk fragmentId e s'.
Proof.
  intros H. unfold Backend.downloadFragment, catch_. rewrite H. reflexivity.
Qed.

Lemma fallbackPath_run
    (p : parameters) (chunk : Chunk) (fragmentId : string) (e : exn) (s : St)
    (r : result ArrayBuffer) (w : World) :
  serveArrayBuffer (world s) (fragmentLeafUrl p fragmentId) = (r, w) →
  fallbackPath p chunk fragmentId e s
  = lift (rbind r (decodeFragmentChunk chunk))
      {| world := w;
         log := (log s ++ [ConsoleLog (LogExn e);
                           Request (fragmentLeafUrl p fragmentId)
                             Transport.RtArrayBuffer])%list |}.
Proof.
  intros H. unfold Backend.fallbackPath, bind, consoleLog, emit.
  fold (fragmentLeafUrl p fragmentId). unfold requestArrayBuffer. simpl.
  rewrite H. rewrite <- app_assoc. simpl.
  destruct r as [e' | b]; simpl; [reflexivity |].
  destruct (decodeFragmentChunk chunk b); reflexivity.
Qed.

Lemma primaryPath_merge_fails
    (fuel : nat) (p : parameters) (chunk : Chunk) (fragmentId : string)
    (s : St) (e : exn) (w : World) :
  serveJson (world s) (fragmentMergeUrl p fragmentId) = (inl e, w) →
  primaryPath fuel p chunk fragmentId s
  = (Rejected e,
     {| world := w;
        log := (log s ++ [Request (fragmentMergeUrl p fragmentId)
                            Transport.RtJson])%list |}).
Proof.
  intros H. unfold Backend.primaryPath, bind.
  fold (fragmentMergeUrl p fragmentId). unfold requestJson.
  rewrite H. reflexivity.
Qed.

(** C3: if the primary path (the [.merge] document of the fragment, the
    merge graph, the merged decode) rejects, for whatever reason, the
    single leaf named by the fragment id is fetched and decoded alone, and
    that is the outcome of the call; in particular when the [.merge] fetch
    itself fails.  If the primary path resolves, the call ends as the
    primary path did: nothing is requested, logged or decoded after it. *)
Theorem fallback_only_after_primary_failure
    (fuel : nat) (p : parameters) (chunk : Chunk) (fragmentId : string)
    (s : St) :
  (∀ c s',
     primaryPath fuel p chunk fragmentId s = (Resolved c, s') →
     downloadFragment fuel p chunk fragmentId s = (Resolved c, s'))
  ∧ (∀ e s' r w,
       primaryPath fuel p chunk fragmentId s = (Rejected e, s') →
       serveArrayBuffer (world s') (fragmentLeafUrl p fragmentId) = (r, w) →
       downloadFragment fuel p chunk fragmentId s
       = lift (rbind r (decodeFragmentChunk chunk))
           {| world := w;
              log := (log s' ++ [ConsoleLog (LogExn e);
                                 Request (fragmentLeafUrl p fragmentId)
                                   Transport.RtArrayBuffer])%list |})
  ∧ (∀ e w,
       serveJson (world s) (fragmentMergeUrl p fragmentId) = (inl e, w) →
       primaryPath fuel p chunk fragmentId s
       = (Rejected e,
          {| world := w;
             log := (log s ++ [Request (fragmentMergeUrl p fragmentId)
                                 Transport.RtJson])%list |})).
Proof.
  split_and!.
  - intros c s'. apply downloadFragment_primary.
  - intros e s' r w Hp Hl.
    rewrite (downloadFragment_catches _ _ _ _ _ _ _ Hp).
    apply fallbackPath_run, Hl.
  - intros e w. apply primaryPath_merge_fails.
Qed.

(** C5, as the code has it: a primary path that ends with the
    cancellation is caught like any other rejection.  The cancellation is
    written to the console and the single leaf of the fragment is
    requested; the call rejects with the cancellation once that request is
    rejected with it. *)
Theorem cancellation_takes_fallback_path
    (fuel : nat) (p : parameters) (chunk : Chunk) (fragmentId : string)
    (s s' : St) (r : result ArrayBuffer) (w : World) :
  primaryPath fuel p chunk fragmentId s = (Rejected CANCELED, s') →
  serveArrayBuffer (world s') (fragmentLeafUrl p fragmentId) = (r, w) →
  downloadFragment fuel p chunk fragmentId s
    = fallbackPath p chunk fragmentId CANCELED s'
  ∧ log (snd (downloadFragment fuel p chunk fragmentId s))
    = (log s' ++ [ConsoleLog (LogExn CANCELED);
                  Request (fragmentLeafUrl p fragmentId)
                    Transport.RtArrayBuffer])%list
  ∧ (r = inl CANCELED →
     fst (downloadFragment fuel p chunk fragmentId s) = Rejected CANCELED).
Proof.
  intros Hp Hl.
  pose proof (downloadFragment_catches _ _ _ _ _ _ _ Hp) as Hc.
  split_and!; [exact Hc | |].
  - rewrite Hc, (fallbackPath_run _ _ _ _ _ _ _ Hl).
    destruct (rbind r (decodeFragmentChunk chunk)); reflexivity.
  - intros ->. rewrite Hc, (fallbackPath_run _ _ _ _ _ _ _ Hl). reflexivity.
Qed.

End FragmentFacts.

(* ================================================================== *)
(** * Properties of the decoders *)

Section DecodeFacts.
Import Backend.

Lemma byteZ_range (b : byte) : 0 ≤ byteZ b < 256.
Proof.
  unfold byteZ. pose proof (Byte.to_N_bounded b). lia.
Qed.

Lemma lor_shiftl (a b n : Z) :
  0 ≤ n → 0 ≤ a < 2 ^ n → Z.lor a (Z.shiftl b n) = a + 2 ^ n * b.
Proof.
  intros Hn Ha. rewrite <- Z.add_nocarry_lor.
  - rewrite Z.shiftl_mul_pow2 by assumption. lia.
  - apply Z.bits_inj'. intros i Hi. rewrite Z.land_spec, Z.bits_0.
    destruct (Z.lt_ge_cases i n) as [Hlt | Hge].
    + rewrite Z.shiftl_spec_low by assumption. apply andb_false_r.
    + rewrite <- (Z.mod_small a (2 ^ n)) by assumption.
      rewrite Z.mod_pow2_bits_high by lia. reflexivity.
Qed.

Lemma word32_range (e : Endianness) (b0 b1 b2 b3 : byte) :
  0 ≤ word32 e b0 b1 b2 b3 < 2 ^ 32.
Proof.
  pose proof (byteZ_range b0). pose proof (byteZ_range b1).
  pose proof (byteZ_range b2). pose proof (byteZ_range b3).
  destruct e; unfold word32; lia.
Qed.

(** [getUint32(0, true)] is the little-endian word of the first four
    bytes, and fails on a shorter buffer. *)
Lemma getUint32_header (leaf : ArrayBuffer) :
  getUint32 leaf 0 true
  = match vertexCountOf leaf with
    | Some n => inr n
    | None => inl (RangeError "Offset is outside the bounds of the DataView")
    end.
Proof.
  unfold getUint32, vertexCountOf. rewrite drop_0.
  destruct leaf as [| b0 [| b1 [| b2 [| b3 rest]]]]; try reflexivity.
  pose proof (byteZ_range b0). pose proof (byteZ_range b1).
  pose proof (byteZ_range b2). pose proof (byteZ_range b3).
  unfold word32. f_equal.
  rewrite (lor_shiftl (byteZ b0) (byteZ b1) 8) by lia.
  rewrite (lor_shiftl _ (byteZ b2) 16) by lia.
  rewrite (lor_shiftl _ (byteZ b3) 24) by lia.
  lia.
Qed.

Lemma headers_read (responses : list ArrayBuffer) (counts : list Z) :
  Forall2 (λ response n, vertexCountOf response = Some n) responses counts →
  rmapM (λ response, getUint32 response 0 true) responses = inr counts.
Proof.
  induction 1 as [| response n responses counts Hn _ IH]; simpl.
  - reflexivity.
  - rewrite getUint32_header, Hn. simpl. rewrite IH. reflexivity.
Qed.

Context {MeshData Chunk : Type}.
Variable decodeTriangleVertexPositionsAndIndices :
  ArrayBuffer → Endianness → Z → Z → result MeshData.
Variable decodeTriangleVertexPositionsAndIndicesM :
  list ArrayBuffer → Endianness → Z → list Z → result MeshData.
Variable assignMeshFragmentData : Chunk → MeshData → result Chunk.

(** C9: decoding a terminal leaf reads its vertex count as the unsigned
    little-endian 32-bit word at byte offset 0 and hands the parser the
    whole buffer with vertex byte offset 4 and that count, unchanged; the
    merged decoder does so for every leaf, in order.  A buffer too short
    to hold the count is a [RangeError]. *)
Theorem header_count_passed_unchanged :
  (∀ chunk response n,
     vertexCountOf response = Some n →
     decodeFragmentChunk decodeTriangleVertexPositionsAndIndices
       assignMeshFragmentData chunk response
     = rbind (decodeTriangleVertexPositionsAndIndices response LITTLE 4 n)
             (assignMeshFragmentData chunk)
     ∧ 0 ≤ n < 2 ^ 32)
  ∧ (∀ chunk responses counts,
       Forall2 (λ response n, vertexCountOf response = Some n)
         responses counts →
       decodeFragmentChunkM decodeTriangleVertexPositionsAndIndicesM
         assignMeshFragmentData chunk responses
       = rbind (decodeTriangleVertexPositionsAndIndicesM
                  responses LITTLE 4 counts)
               (assignMeshFragmentData chunk))
  ∧ (∀ chunk response,
       vertexCountOf response = None →
       decodeFragmentChunk decodeTriangleVertexPositionsAndIndices
         assignMeshFragmentData chunk response
       = inl (RangeError "Offset is outside the bounds of the DataView")).
Proof.
  split_and!.
  - intros chunk response n Hn. unfold decodeFragmentChunk.
    rewrite getUint32_header, Hn. split; [reflexivity |].
    unfold vertexCountOf in Hn.
    destruct response as [| b0 [| b1 [| b2 [| b3 rest]]]]; try discriminate.
    injection Hn as <-. apply (word32_range LITTLE).
  - intros chunk responses counts H. unfold decodeFragmentChunkM.
    rewrite (headers_read _ _ H). reflexivity.
  - intros chunk response Hn. unfold decodeFragmentChunk.
    rewrite getUint32_header, Hn. reflexivity.
Qed.

End DecodeFacts.

Section MeshFacts.
Import Backend MeshBackend.

Lemma offsetOf_cons (v : Z) (counts : list Z) (i : nat) :
  offsetOf (v :: counts) (S i) = v + offsetOf counts i.
Proof. reflexivity. Qed.

Lemma mergeLeaves_positions (ms : list (Z * EncodedMeshData)) :
  ∀ offset,
    vertexPositions (mergeLeaves offset ms)
    = concat (List.map (λ vm, vertexPositions vm.2) ms).
Proof.
  induction ms as [| [v m] ms IH]; intros offset; simpl.
  - reflexivity.
  - rewrite IH. reflexivity.
Qed.

Lemma mergeLeaves_indices (ms : list (Z * EncodedMeshData)) :
  ∀ offset,
    indices (mergeLeaves offset ms)
    = concat (imap (λ i vm, List.map (Z.add (offset + offsetOf ms.*1 i))
                              (indices vm.2)) ms).
Proof.
  induction ms as [| [v m] ms IH]; intros offset.
  - reflexivity.
  - simpl mergeLeaves. simpl indices. rewrite IH, imap_cons. simpl concat.
    f_equal.
    + unfold offsetOf. simpl. rewrite Z.add_0_r. reflexivity.
    + f_equal. apply imap_ext. intros i [v' m'] _. simpl.
      rewrite offsetOf_cons, Z.add_assoc. reflexivity.
Qed.

Lemma leaves_decoded (leaves : list ArrayBuffer) :
  ∀ ms,
    rmapM leafData leaves = inr ms →
    rmapM (λ response, getUint32 response 0 true) leaves = inr ms.*1
    ∧ rmapM (λ '(data, numVertices),
               decodeTriangleVertexPositionsAndIndices
                 data LITTLE 4 numVertices)
            (zip leaves ms.*1)
      = inr ms.*2.
Proof.
  induction leaves as [| leaf leaves IH]; intros ms H; simpl in H.
  - injection H as <-. auto.
  - unfold leafData at 1 in H. unfold rbind at 1 2 in H.
    destruct (getUint32 leaf 0 true) as [e | n] eqn:Hn; [discriminate |].
    unfold rbind at 1 in H.
    destruct (decodeTriangleVertexPositionsAndIndices leaf LITTLE 4 n)
      as [e | m] eqn:Hm; [discriminate |].
    unfold rbind at 1 in H.
    destruct (rmapM leafData leaves) as [e | ms'] eqn:Hms; [discriminate |].
    injection H as <-. destruct (IH ms' eq_refl) as [H1 H2].
    unfold fmap in H1, H2. simpl. rewrite Hn. simpl. rewrite H1. simpl.
    rewrite Hm. simpl. rewrite H2. auto.
Qed.

Lemma words32_length (e : Endianness) (n : nat) :
  ∀ bs ws,
    (length bs ≤ n)%nat →
    words32 e bs = Some ws →
    length bs = (4 * length ws)%nat.
Proof.
  induction n as [n IH] using lt_wf_ind. intros bs ws Hn H.
  destruct bs as [| b0 [| b1 [| b2 [| b3 rest]]]]; simpl in H;
    try discriminate.
  - injection H as <-. reflexivity.
  - destruct (words32 e rest) as [ws' |] eqn:Hr; [| discriminate].
    injection H as <-. simpl in Hn. simpl.
    rewrite (IH (length rest) ltac:(lia) rest ws' (le_n _) Hr). lia.
Qed.

(** A decoded leaf holds three position components for each vertex of
    its declared count. *)
Lemma decoded_positions (data : ArrayBuffer) (e : Endianness) (off n : Z)
    (m : EncodedMeshData) :
  0 ≤ n →
  decodeTriangleVertexPositionsAndIndices data e off n = inr m →
  Z.of_nat (length (vertexPositions m)) = 3 * n.
Proof.
  intros Hn. unfold decodeTriangleVertexPositionsAndIndices.
  destruct (Nat.ltb_spec (length (drop (Z.to_nat off) data))
              (Z.to_nat (12 * n))) as [Hlt | Hge]; [discriminate |].
  destruct (words32 e (take (Z.to_nat (12 * n)) (drop (Z.to_nat off) data)))
    as [vs |] eqn:Hv; [| discriminate].
  destruct (words32 e (drop (Z.to_nat (12 * n)) (drop (Z.to_nat off) data)))
    as [ixs |]; [| discriminate].
  destruct (length ixs mod 3 =? 0)%nat; [| discriminate].
  intros [= <-]. simpl.
  apply (words32_length e _ _ _ (le_n _)) in Hv.
  rewrite length_take in Hv. lia.
Qed.

Lemma leafData_count (leaf : ArrayBuffer) (v : Z) (m : EncodedMeshData) :
  leafData leaf = inr (v, m) →
  0 ≤ v < 2 ^ 32 ∧ Z.of_nat (length (vertexPositions m)) = 3 * v.
Proof.
  unfold leafData. rewrite getUint32_header.
  destruct (vertexCountOf leaf) as [n |] eqn:Hn; [| discriminate]. simpl.
  destruct (decodeTriangleVertexPositionsAndIndices leaf LITTLE 4 n)
    as [e | m'] eqn:Hm; [discriminate |].
  simpl. intros [= <- <-].
  assert (Hr : 0 ≤ n < 2 ^ 32).
  { unfold vertexCountOf in Hn.
    destruct leaf as [| b0 [| b1 [| b2 [| b3 rest]]]]; try discriminate.
    injection Hn as <-. apply (word32_range LITTLE). }
  split; [exact Hr |]. apply (decoded_positions _ _ _ _ _ (proj1 Hr) Hm).
Qed.

Lemma merged_positions_length (leaves : list ArrayBuffer) :
  ∀ ms,
    rmapM leafData leaves = inr ms →
    Z.of_nat (length (concat (List.map (λ vm, vertexPositions vm.2) ms)))
    = 3 * offsetOf ms.*1 (length ms).
Proof.
  induction leaves as [| leaf leaves IH]; intros ms H; simpl in H.
  - injection H as <-. reflexivity.
  - destruct (leafData leaf) as [e | [v m]] eqn:Hl; [discriminate |].
    simpl in H.
    destruct (rmapM leafData leaves) as [e | ms'] eqn:Hms; [discriminate |].
    injection H as <-. specialize (IH ms' eq_refl).
    destruct (leafData_count _ _ _ Hl) as [_ Hlen].
    simpl concat. simpl length. rewrite fmap_cons, offsetOf_cons.
    rewrite length_app, Nat2Z.inj_add, IH. simpl in *. lia.
Qed.

Lemma shifted_in_range (offset v : Z) (m : EncodedMeshData) :
  indicesBelow v m = true →
  Forall (λ x, offset ≤ x < offset + v)
    (List.map (Z.add offset) (indices m)).
Proof.
  unfold indicesBelow. rewrite forallb_forall. intros H.
  apply Forall_forall. intros x Hx.
  apply list_elem_of_In, in_map_iff in Hx as (i & <- & Hi).
  specialize (H i Hi). apply andb_true_iff in H as [H0 H1].
  apply Z.leb_le in H0. apply Z.ltb_lt in H1. lia.
Qed.

(** C7: for leaves that decode, with declared vertex counts
    [v0, v1, ...], the merged decode has as its vertex buffer the vertex
    arrays of the leaves concatenated in leaf order, and as its index
    buffer the contributions of the leaves in leaf order, where leaf [i]
    contributes its own indices shifted by [offset_i], the sum of the
    counts before it, with [offset_0 = 0]; the vertex buffer holds three
    components for each of the [v0 + v1 + ...] vertices.  For a leaf that
    keeps the
    invariant of a terminal leaf (every index below its declared count)
    every contributed index lies in [[offset_i, offset_i + v_i)]. *)
Theorem decodeMerged_offsets
    (leaves : list ArrayBuffer) (ms : list (Z * EncodedMeshData)) :
  rmapM leafData leaves = inr ms →
  ∃ g,
    decodeMerged leaves = inr (Some g)
    ∧ vertexPositions g = concat (List.map (λ vm, vertexPositions vm.2) ms)
    ∧ Z.of_nat (length (vertexPositions g)) = 3 * offsetOf ms.*1 (length ms)
    ∧ indices g = concat (imap (λ i vm, contribution ms.*1 i vm.2) ms)
    ∧ offsetOf ms.*1 0 = 0
    ∧ (∀ i v m,
         ms !! i = Some (v, m) →
         offsetOf ms.*1 (S i) = offsetOf ms.*1 i + v
         ∧ (indicesBelow v m = true →
            Forall (λ x, offsetOf ms.*1 i ≤ x < offsetOf ms.*1 i + v)
              (contribution ms.*1 i m))).
Proof.
  intros H. destruct (leaves_decoded _ _ H) as [H1 H2].
  exists (mergeLeaves 0 ms). split_and!.
  - unfold decodeMerged, decodeFragmentChunkM. rewrite H1. simpl.
    unfold decodeTriangleVertexPositionsAndIndicesM. rewrite H2. simpl.
    rewrite zip_fst_snd. reflexivity.
  - apply mergeLeaves_positions.
  - rewrite mergeLeaves_positions. apply (merged_positions_length _ _ H).
  - rewrite mergeLeaves_indices. reflexivity.
  - reflexivity.
  - intros i v m Hi. split.
    + unfold offsetOf.
      assert (Hv : ms.*1 !! i = Some v) by (rewrite list_lookup_fmap, Hi; reflexivity).
      rewrite (take_S_r _ _ _ Hv), foldr_app. simpl.
      generalize (take i ms.*1). intros l. induction l as [| x l IH]; simpl; lia.
    + apply shifted_in_range.
Qed.

End MeshFacts.

(* ================================================================== *)
(** * The properties at work on the concrete collaborators *)

Section Instances.
Import Json Backend MeshBackend Tabled.

Lemma merge_failure_falls_back_to_leaf_witness :
  fst (downloadMergeFragment serveJson serveArrayBuffer 2 base doc1
         (JStr "1") start)
  = Resolved [leafB; leafC; leafA].
Proof.
  destruct (merge_failure_falls_back_to_leaf serveJson serveArrayBuffer
              1 base doc1 (JStr "1") [JNum 2; JNum 1] (JNum 3) []
              start afterTwoKeys [leafB; leafC; leafA]
              (HttpError 404) tt (inl (HttpError 404)) tt)
    as [Heq _].
  - reflexivity.
  - vm_compute. reflexivity.
  - vm_compute. discriminate.
  - reflexivity.
  - reflexivity.
  - rewrite Heq. reflexivity.
Defined.

Lemma master_leaf_fetched_directly_witness :
  downloadMergeFragment serveJson serveArrayBuffer 2 base doc1 (JStr "1") start
  = forOf [JNum 3]
      (mergeStep serveJson serveArrayBuffer
         (downloadMergeFragment serveJson serveArrayBuffer 1) base (JStr "1"))
      [leafB; leafC; leafA] afterTwoKeys.
Proof.
  destruct (master_leaf_fetched_directly serveJson serveArrayBuffer
              1 base doc1 (JStr "1") [JNum 2] (JNum 1) [JNum 3]
              start afterOneKey [leafB; leafC] (inr leafA) tt)
    as [Heq _].
  - reflexivity.
  - vm_compute. reflexivity.
  - reflexivity.
  - reflexivity.
  - rewrite Heq. reflexivity.
Defined.

(** The master leaf cannot be fetched, and the call resolves with no leaf
    instead of rejecting. *)
Lemma master_failure_is_swallowed :
  ¬ masterFailurePropagates serveJson serveNoLeaf.
Proof.
  intros H.
  specialize (H O base (JArr [JNum 1]) (JStr "1") [] (JNum 1) []
                start start [] (HttpError 404) tt
                eq_refl eq_refl eq_refl eq_refl).
  vm_compute in H. discriminate.
Qed.

Lemma leaves_in_depth_first_order_witness :
  ∃ ks gs,
    iterate doc1 = Some ks
    ∧ servedAll serveJson serveArrayBuffer tt base ks (JStr "1") gs tt
    ∧ [leafB; leafC; leafA] = flat_map dfs gs.
Proof.
  refine (proj1 (leaves_in_depth_first_order serveJson serveArrayBuffer)
            3%nat base doc1 (JStr "1") start [leafB; leafC; leafA]
            (snd (downloadMergeFragment serveJson serveArrayBuffer 3 base doc1
                    (JStr "1") start)) _).
  vm_compute. reflexivity.
Defined.

Lemma fallback_only_after_primary_failure_witness :
  primary serveJson serveArrayBuffer 3 "4"
  = (Rejected (HttpError 404), afterMerge "4").
Proof.
  refine (proj2 (proj2 (fallback_only_after_primary_failure
                          serveJson serveArrayBuffer
                          decodeTriangleVertexPositionsAndIndices
                          decodeTriangleVertexPositionsAndIndicesM
                          assignMeshFragmentData 3 params None "4" start))
            (HttpError 404) tt _).
  reflexivity.
Defined.

Example fallback_decodes_single_leaf :
  fst (download serveJson serveArrayBuffer 3 "4")
  = Resolved (Some (mkMesh [0; 0; 0; 0; 0; 0] [0; 1; 1])).
Proof. vm_compute. reflexivity. Qed.

Example primary_decodes_merged_leaves :
  download serveJson serveArrayBuffer 3 "1"
  = primary serveJson serveArrayBuffer 3 "1"
  ∧ fst (download serveJson serveArrayBuffer 3 "1")
    = Resolved (Some (mkMesh (replicate 18 0) [1; 2; 2; 3; 4; 5])).
Proof. split; vm_compute; reflexivity. Qed.

Lemma cancellation_takes_fallback_path_witness :
  log (snd (download cancelledJson cancelledArrayBuffer 3 "1"))
  = [Request (base ++ "/1.merge") Transport.RtJson;
     ConsoleLog (LogExn CANCELED);
     Request (base ++ "/1.ngmesh") Transport.RtArrayBuffer].
Proof.
  refine (proj1 (proj2 (cancellation_takes_fallback_path
                          cancelledJson cancelledArrayBuffer
                          decodeTriangleVertexPositionsAndIndices
                          decodeTriangleVertexPositionsAndIndicesM
                          assignMeshFragmentData 3 params None "1"
                          start (afterMerge "1") (inl CANCELED) tt _ _))).
  - reflexivity.
  - reflexivity.
Defined.

(** Once the token has fired, the fragment download still asks for the
    single leaf after the primary path has ended with the cancellation. *)
Lemma cancellation_reaches_fallback :
  ¬ cancellationSkipsFallback cancelledJson cancelledArrayBuffer
      decodeTriangleVertexPositionsAndIndices
      decodeTriangleVertexPositionsAndIndicesM
      assignMeshFragmentData.
Proof.
  intros H.
  specialize (H 3%nat params None "1" start (afterMerge "1") eq_refl).
  vm_compute in H. discriminate.
Qed.

Lemma header_count_passed_unchanged_witness :
  decodeFragmentChunkM decodeTriangleVertexPositionsAndIndicesM
    assignMeshFragmentData None [leafB; leafC; leafA]
  = rbind (decodeTriangleVertexPositionsAndIndicesM
             [leafB; leafC; leafA] LITTLE 4 [1; 2; 3])
          (assignMeshFragmentData None).
Proof.
  refine (proj1 (proj2 (header_count_passed_unchanged
                          decodeTriangleVertexPositionsAndIndices
                          decodeTriangleVertexPositionsAndIndicesM
                          assignMeshFragmentData))
            None [leafB; leafC; leafA] [1; 2; 3] _).
  repeat constructor.
Defined.

Lemma decodeMerged_offsets_witness :
  ∃ g, decodeMerged [leafB; leafC; leafA] = inr (Some g)
       ∧ indices g = [1; 2; 2; 3; 4; 5]
       ∧ Forall (λ x, 3 ≤ x < 3 + 3)
           (contribution [1; 2; 3] 2 (mkMesh (replicate 9 0) [0; 1; 2])).
Proof.
  destruct (decodeMerged_offsets [leafB; leafC; leafA] decodedBCA)
    as (g & Hd & _ & _ & Hi & _ & Hr).
  - vm_compute. reflexivity.
  - exists g. split; [exact Hd |]. split; [rewrite Hi; reflexivity |].
    apply (proj2 (Hr 2%nat 3 (mkMesh (replicate 9 0) [0; 1; 2]) eq_refl)).
    reflexivity.
Defined.

(** The first scenario of the testable properties: three vertices and the
    triangle [0, 1, 2]. *)
Example decodeOne_triangle :
  decodeOne leafA = inr (Some (mkMesh (replicate 9 0) [0; 1; 2])).
Proof. vm_compute. reflexivity. Qed.

(** The bound on the contributed indices rests on the invariant of the
    leaves: a leaf whose index exceeds its declared count keeps it. *)
Example index_beyond_count_is_kept :
  decodeMerged [leafBad; leafA]
  = inr (Some (mkMesh (replicate 12 0) [0; 1; 7; 1; 2; 3])).
Proof. vm_compute. reflexivity. Qed.

End Instances.

(* ================================================================== *)
(** * More properties of api.ts *)

Section ApiFacts.
Import Transport Api.

Lemma append_cons (x : Ascii.ascii) (a b : string) :
  String x a ++ b = String x (a ++ b).
Proof. reflexivity. Qed.

Lemma append_nil_l (b : string) : "" ++ b = b.
Proof. reflexivity. Qed.

Lemma append_assoc (a b c : string) : (a ++ b) ++ c = a ++ (b ++ c).
Proof.
  induction a as [| x a IH]; rewrite ?append_nil_l, ?append_cons; congruence.
Qed.

Lemma append_nil_r (a : string) : a ++ "" = a.
Proof.
  induction a as [| x a IH]; rewrite ?append_nil_l, ?append_cons; congruence.
Qed.

Lemma prefix_app (n a b : string) :
  String.prefix n a = true → String.prefix n (a ++ b) = true.
Proof.
  revert a. induction n as [| c n IH]; intros a H.
  - destruct (a ++ b); reflexivity.
  - destruct a as [| d a]; [discriminate |].
    rewrite append_cons. simpl in *.
    destruct (Ascii.ascii_dec c d); [apply IH, H | discriminate].
Qed.

Lemma prefix_self_app (a b : string) : String.prefix a (a ++ b) = true.
Proof.
  induction a as [| c a IH].
  - destruct ("" ++ b); reflexivity.
  - rewrite append_cons. simpl.
    destruct (Ascii.ascii_dec c c); [exact IH | contradiction].
Qed.

Lemma includes_cons (n : string) (c : Ascii.ascii) (rest : string) :
  includes n (String c rest)
  = String.prefix n (String c rest) || includes n rest.
Proof. reflexivity. Qed.

Lemma includes_app_l (n a b : string) :
  includes n a = true → includes n (a ++ b) = true.
Proof.
  induction a as [| c a IH]; intros H.
  - simpl in H. rewrite orb_false_r in H. destruct n; [| discriminate].
    destruct ("" ++ b); reflexivity.
  - rewrite includes_cons in H. apply orb_true_iff in H as [H | H].
    + rewrite append_cons, includes_cons, <- append_cons.
      rewrite (prefix_app _ _ _ H). reflexivity.
    + rewrite append_cons, includes_cons, (IH H). apply orb_true_r.
Qed.

Lemma includes_app_r (n a b : string) :
  includes n b = true → includes n (a ++ b) = true.
Proof.
  intros H. induction a as [| c a IH]; [exact H |].
  rewrite append_cons, includes_cons, IH. apply orb_true_r.
Qed.

Lemma appended_has_query (url : string) :
  includes "?" (if includes "?" url then url ++ "&" else url ++ "?") = true.
Proof.
  destruct (includes "?" url) eqn:H.
  - apply includes_app_l, H.
  - apply includes_app_r. reflexivity.
Qed.

(** X1: the URL [appendQueryStringForDvid] returns starts with the URL
    it was given and always holds a question mark; hence a second
    application joins with an ampersand and never adds another question
    mark. *)
Theorem appendQueryStringForDvid_has_query
    (url : string) (user user' : option string) :
  String.prefix url (appendQueryStringForDvid url user) = true
  ∧ includes "?" (appendQueryStringForDvid url user) = true
  ∧ appendQueryStringForDvid (appendQueryStringForDvid url user) user'
    = (appendQueryStringForDvid url user ++ "&") ++ "app=Neuroglancer"
        ++ (if truthy user' then "&u=" ++ default "" user' else "").
Proof.
  assert (Hq : includes "?" (appendQueryStringForDvid url user) = true).
  { unfold appendQueryStringForDvid.
    destruct (truthy user);
      repeat apply includes_app_l; apply appended_has_query. }
  split_and!.
  - unfold appendQueryStringForDvid.
    destruct (includes "?" url), (truthy user);
      rewrite ?append_assoc; apply prefix_self_app.
  - exact Hq.
  - unfold appendQueryStringForDvid at 1. rewrite Hq.
    destruct (truthy user'); [| rewrite append_nil_r]; rewrite ?append_assoc;
      reflexivity.
Qed.

(** X2: [makeRequest] and [makeRequestWithCredentials] choose the same
    response transform exactly for the response types [''] and ['json'];
    for ['arraybuffer'] and every other type [makeRequest] parses the
    body as JSON where [makeRequestWithCredentials] hands back the
    bytes. *)
Theorem transforms_agree_on_text_and_json (rt : XMLHttpRequestResponseType) :
  (makeRequestTransform rt = makeRequestWithCredentialsTransform rt
   ↔ rt = rtEmpty ∨ rt = rtJson)
  ∧ (rt ≠ rtEmpty → rt ≠ rtJson →
     makeRequestTransform rt = responseJson
     ∧ makeRequestWithCredentialsTransform rt = responseArrayBuffer).
Proof.
  destruct rt; simpl; (split; [split |]); intros; try tauto; try discriminate;
    intuition (try discriminate; try congruence).
Qed.

Lemma transforms_agree_on_text_and_json_witness :
  makeRequestTransform rtArraybuffer = responseJson
  ∧ makeRequestWithCredentialsTransform rtArraybuffer = responseArrayBuffer.
Proof.
  apply (proj2 (transforms_agree_on_text_and_json rtArraybuffer));
    discriminate.
Defined.

Lemma meshServiceUrl_secure (parameters : DVIDSourceParameters)
    (fragmentId : string) :
  String.prefix "https" (meshServiceUrl parameters fragmentId) = true.
Proof.
  unfold meshServiceUrl. apply prefix_app.
  unfold defaultMeshService. apply prefix_app. apply prefix_app. reflexivity.
Qed.

Lemma bearer_when_secure (input creds : string) (init : RequestInit) :
  String.prefix "https" input = true →
  creds ≠ "" →
  authorization (applyCredentials input creds init) = Some ("Bearer " ++ creds).
Proof.
  intros Hs Hc. unfold applyCredentials. rewrite Hs.
  destruct creds as [| c creds]; [congruence |]. simpl.
  unfold authorization. simpl. apply lookup_insert_eq.
Qed.

(** X3: [fetchMeshDataFromService] never throws, and its request always
    goes to an [https] URL, whatever the scheme of the DVID server in
    [parameters.baseUrl]: a non-empty token is sent as a bearer header
    and the empty token turns cookie inclusion on. *)
Theorem mesh_service_always_credentialed
    (parameters : DVIDSourceParameters) (fragmentId creds : string) :
  ∃ c,
    fetchMeshDataFromService parameters fragmentId = inr c
    ∧ url c = meshServiceUrl parameters fragmentId
    ∧ String.prefix "https" (url c) = true
    ∧ (creds ≠ "" →
       authorization (applyCredentials (url c) creds (initOfCall c))
       = Some ("Bearer " ++ creds))
    ∧ (creds = "" →
       credentials (applyCredentials (url c) creds (initOfCall c))
       = Some "include").
Proof.
  eexists. split; [reflexivity |]. simpl.
  pose proof (meshServiceUrl_secure parameters fragmentId) as Hs.
  split_and!; [reflexivity | exact Hs | |].
  - intros Hc. apply bearer_when_secure; assumption.
  - intros ->. unfold applyCredentials. simpl url. rewrite Hs. reflexivity.
Qed.

Lemma header_kept (input creds : string) (init : RequestInit) (k : string) :
  k ≠ "Authorization" →
  headers (applyCredentials input creds init) ≫= (λ h, h !! k)
  = headers init ≫= (λ h, h !! k).
Proof.
  intros Hk. unfold applyCredentials.
  destruct (String.prefix "https" input); [| reflexivity].
  destruct (0 <? String.length creds)%nat; [| reflexivity].
  simpl. rewrite lookup_insert_ne by congruence.
  unfold spreadHeaders. destruct (headers init); reflexivity.
Qed.

(** X4: [applyCredentials] touches nothing but the [Authorization]
    header and the [credentials] mode: method, body and every other
    header of the request options come out as they went in, and applying
    the same credential a second time changes nothing. *)
Theorem applyCredentials_keeps_request
    (input creds : string) (init : RequestInit) :
  method (applyCredentials input creds init) = method init
  ∧ body (applyCredentials input creds init) = body init
  ∧ (∀ k, k ≠ "Authorization" →
       headers (applyCredentials input creds init) ≫= (λ h, h !! k)
       = headers init ≫= (λ h, h !! k))
  ∧ applyCredentials input creds (applyCredentials input creds init)
    = applyCredentials input creds init.
Proof.
  split_and!.
  - unfold applyCredentials.
    destruct (String.prefix "https" input), (0 <? String.length creds)%nat;
      reflexivity.
  - unfold applyCredentials.
    destruct (String.prefix "https" input), (0 <? String.length creds)%nat;
      reflexivity.
  - intros k. apply header_kept.
  - unfold applyCredentials.
    destruct (String.prefix "https" input); [| reflexivity].
    destruct (0 <? String.length creds)%nat; simpl; [| reflexivity].
    rewrite insert_insert_eq. reflexivity.
Qed.

(** X5: the second [applyCredentials] of api.ts builds the headers
    afresh: for an [https] target every header of the request options it
    is given is dropped, and only [Authorization] can be present
    afterwards; for any other target the options are unchanged. *)
Theorem applyCredentialsReady_drops_headers
    (input creds : string) (init : RequestInit) :
  (String.prefix "https" input = true →
   ∀ k, k ≠ "Authorization" →
     headers (applyCredentialsReady input creds init) ≫= (λ h, h !! k) = None)
  ∧ (String.prefix "https" input = false →
     applyCredentialsReady input creds init = init).
Proof.
  unfold applyCredentialsReady. split; intros Hs; rewrite Hs; [| reflexivity].
  intros k Hk. destruct (0 <? String.length creds)%nat; simpl.
  - rewrite lookup_insert_ne by congruence. apply lookup_empty.
  - apply lookup_empty.
Qed.

End ApiFacts.

(* ================================================================== *)
(** * More properties of the resolver and of the decoders *)

Section ResolverMore.
Import Json Backend Logs.
Context {World : Type}.
Variable serveJson : World → string → result json * World.
Variable serveArrayBuffer : World → string → result ArrayBuffer * World.

#[local] Abbreviation St := (@St World).
#[local] Abbreviation M := (@M World).
#[local] Abbreviation mergeStep := (mergeStep serveJson serveArrayBuffer).
#[local] Abbreviation downloadMergeFragment :=
  (downloadMergeFragment serveJson serveArrayBuffer).

Lemma forOf_related {A B : Type} (R : A → A → Prop)
    (body1 body2 : A → B → M B) (xs ys : list A) :
  Forall2 R xs ys →
  (∀ x y acc s, R x y → body1 x acc s = body2 y acc s) →
  ∀ acc s, forOf xs body1 acc s = forOf ys body2 acc s.
Proof.
  intros HR Hb. induction HR as [| x y xs ys Hxy _ IH]; intros acc s; simpl.
  - reflexivity.
  - unfold bind. rewrite (Hb x y acc s Hxy).
    destruct (body2 y acc s) as [[| b | e] s1]; [reflexivity | apply IH | reflexivity].
Qed.

Lemma Forall2_same {A : Type} (l : list A) : Forall2 eq l l.
Proof. induction l; constructor; auto. Qed.

Lemma mergeStep_texts
    (rec1 rec2 : string → json → json → M (list ArrayBuffer))
    (base : string) (m1 m2 k1 k2 : json) (data : list ArrayBuffer) (s : St) :
  sameText m1 m2 → sameText k1 k2 →
  (∀ doc st, rec1 base doc k1 st = rec2 base doc k2 st) →
  mergeStep rec1 base m1 k1 data s = mergeStep rec2 base m2 k2 data s.
Proof.
  unfold sameText. intros Hm Hk Hrec. unfold Backend.mergeStep.
  rewrite Hm, Hk. destruct (String.eqb (String_ m2) (String_ k2));
    [reflexivity |].
  unfold catch_, bind.
  destruct (requestJson serveJson ((base ++ "/" ++ String_ k2) ++ ".merge") s)
    as [[| doc | e] s1]; try reflexivity.
  rewrite Hrec. reflexivity.
Qed.

Lemma downloadMergeFragment_master_text
    (fuel : nat) (base : string) (keys m1 m2 : json) (s : St) :
  sameText m1 m2 →
  downloadMergeFragment fuel base keys m1 s
  = downloadMergeFragment fuel base keys m2 s.
Proof.
  intros Hm. destruct fuel as [| fuel]; simpl;
    destruct (iterate keys) as [ks |]; try reflexivity.
  apply (forOf_related eq); [apply Forall2_same |].
  intros x y acc st <-. apply mergeStep_texts; [exact Hm | reflexivity | auto].
Qed.

(** X6: a resolve call depends on the master key and on the keys of the
    document only through what [String] makes of them: a key given as the
    number [7] and one given as the string ["7"] lead to the same
    requests, the same log and the same leaves. *)
Theorem resolver_compares_keys_by_text
    (fuel : nat) (base : string) (ks1 ks2 : list json) (m1 m2 : json)
    (s : St) :
  Forall2 sameText ks1 ks2 →
  sameText m1 m2 →
  downloadMergeFragment fuel base (JArr ks1) m1 s
  = downloadMergeFragment fuel base (JArr ks2) m2 s.
Proof.
  intros Hk Hm. destruct fuel as [| fuel]; simpl; [reflexivity |].
  apply (forOf_related sameText); [exact Hk |].
  intros x y acc st Hxy. apply mergeStep_texts; [exact Hm | exact Hxy |].
  intros doc st'. apply downloadMergeFragment_master_text, Hxy.
Qed.

Lemma grows_refl (base : string) (s : St) : grows base s s.
Proof. exists []. rewrite app_nil_r. auto. Qed.

Lemma grows_trans (base : string) (s1 s2 s3 : St) :
  grows base s1 s2 → grows base s2 s3 → grows base s1 s3.
Proof.
  intros (a & Ha & Fa) (b & Hb & Fb). exists (a ++ b)%list.
  rewrite Hb, Ha, app_assoc. split; [reflexivity | apply Forall_app; auto].
Qed.

Lemma grows_by (base : string) (s : St) (w : World) (added : list event) :
  Forall (underBase base) added →
  grows base s {| world := w; log := (log s ++ added)%list |}.
Proof. intros H. exists added. auto. Qed.

Lemma leafLog_under (base : string) (key : json) (r : result ArrayBuffer) :
  Forall (underBase base) (leafLog (leafUrl base key) r).
Proof.
  destruct r; simpl; repeat constructor; simpl; eauto.
Qed.

Lemma mergeStep_grows
    (recurse : string → json → json → M (list ArrayBuffer))
    (base : string) (master key : json) (data : list ArrayBuffer) (s : St) :
  (∀ doc st, grows base st (snd (recurse base doc key st))) →
  grows base s (snd (mergeStep recurse base master key data s)).
Proof.
  intros Hrec.
  destruct (decide (String_ master = String_ key)) as [Hm | Hm].
  - destruct (serveArrayBuffer (world s) (leafUrl base key)) as [r w] eqn:Hb.
    rewrite (mergeStep_master _ _ _ _ _ _ _ _ _ _ Hm Hb). simpl.
    apply grows_by, leafLog_under.
  - destruct (serveJson (world s) (mergeUrl base key)) as [[e | doc] w1] eqn:Hj.
    + destruct (serveArrayBuffer w1 (leafUrl base key)) as [r w2] eqn:Hb.
      rewrite (mergeStep_plain _ _ _ _ _ _ _ _ _ _ _ _ Hm Hj Hb). simpl.
      apply grows_by. constructor; [simpl; eauto | apply leafLog_under].
    + pose proof (Hrec doc
        {| world := w1;
           log := (log s ++ [Request (mergeUrl base key) Transport.RtJson])%list |})
        as Hg.
      assert (H0 : grows base s
        {| world := w1;
           log := (log s ++ [Request (mergeUrl base key) Transport.RtJson])%list |}).
      { apply grows_by. repeat constructor. simpl. eauto. }
      destruct (recurse base doc key
        {| world := w1;
           log := (log s ++ [Request (mergeUrl base key) Transport.RtJson])%list |})
        as [[| result | e] s2] eqn:Hr; simpl in Hg.
      * rewrite (mergeStep_fuel _ _ _ _ _ _ _ _ _ _ _ Hm Hj Hr). simpl.
        eapply grows_trans; eassumption.
      * rewrite (mergeStep_merged _ _ _ _ _ _ _ _ _ _ _ _ Hm Hj Hr). simpl.
        eapply grows_trans; [eassumption |].
        eapply grows_trans; [eassumption |].
        apply grows_by. repeat constructor.
      * destruct (serveArrayBuffer (world s2) (leafUrl base key))
          as [r w2] eqn:Hb.
        rewrite (mergeStep_rejected _ _ _ _ _ _ _ _ _ _ _ _ _ _ Hm Hj Hr Hb).
        simpl. eapply grows_trans; [eassumption |].
        eapply grows_trans; [eassumption |].
        apply grows_by, leafLog_under.
Qed.

Lemma forOf_grows
    (recurse : string → json → json → M (list ArrayBuffer))
    (base : string) (master : json) (keys : list json) :
  (∀ key doc st, grows base st (snd (recurse base doc key st))) →
  ∀ data s,
    grows base s (snd (forOf keys (mergeStep recurse base master) data s)).
Proof.
  intros Hrec. induction keys as [| key keys IH]; intros data s; simpl.
  - apply grows_refl.
  - unfold bind.
    pose proof (mergeStep_grows recurse base master key data s (Hrec key)) as H.
    destruct (mergeStep recurse base master key data s) as [[| d | e] s1];
      simpl in H; simpl; try exact H.
    eapply grows_trans; [exact H | apply IH].
Qed.

(** X7: whatever the server answers and however the call ends, a resolve
    call requests nothing but [.merge] documents (as JSON) and [.ngmesh]
    leaves (as array buffers) of keys directly under the key base URL it
    was given; the log it found is kept as a prefix. *)
Theorem resolver_requests_stay_under_base
    (fuel : nat) (base : string) (keys master : json) (s : St) :
  ∃ added,
    log (snd (downloadMergeFragment fuel base keys master s))
    = (log s ++ added)%list
    ∧ Forall (underBase base) added.
Proof.
  revert keys master s. induction fuel as [| fuel IH]; intros keys master s;
    simpl; destruct (iterate keys) as [ks |]; try apply grows_refl.
  apply forOf_grows. intros key doc st. apply IH.
Qed.

End ResolverMore.

Section FragmentMore.
Import Json Backend.
Context {World MeshData Chunk : Type}.
Variable serveJson : World → string → result json * World.
Variable serveArrayBuffer : World → string → result ArrayBuffer * World.
Variable decodeTriangleVertexPositionsAndIndices :
  ArrayBuffer → Endianness → Z → Z → result MeshData.
Variable decodeTriangleVertexPositionsAndIndicesM :
  list ArrayBuffer → Endianness → Z → list Z → result MeshData.
Variable assignMeshFragmentData : Chunk → MeshData → result Chunk.

#[local] Abbreviation St := (@St World).
#[local] Abbreviation primaryPath :=
  (primaryPath serveJson serveArrayBuffer
     decodeTriangleVertexPositionsAndIndicesM assignMeshFragmentData).
#[local] Abbreviation fallbackPath :=
  (fallbackPath serveArrayBuffer
     decodeTriangleVertexPositionsAndIndices assignMeshFragmentData).
#[local] Abbreviation downloadFragment :=
  (downloadFragment serveJson serveArrayBuffer
     decodeTriangleVertexPositionsAndIndices
     decodeTriangleVertexPositionsAndIndicesM assignMeshFragmentData).
#[local] Abbreviation decodeFragmentChunk :=
  (decodeFragmentChunk decodeTriangleVertexPositionsAndIndices
     assignMeshFragmentData).

Lemma primaryPath_with_document
    (fuel : nat) (p : parameters) (chunk : Chunk) (fragmentId : string)
    (s : St) (doc : json) (w : World) :
  serveJson (world s) (fragmentMergeUrl p fragmentId) = (inr doc, w) →
  primaryPath fuel p chunk fragmentId s
  = bind (downloadMergeFragment serveJson serveArrayBuffer fuel
            (keyBaseUrlOf p) doc (JStr fragmentId))
         (λ data,
            lift (decodeFragmentChunkM decodeTriangleVertexPositionsAndIndicesM
                    assignMeshFragmentData chunk data))
      {| world := w;
         log := (log s ++ [Request (fragmentMergeUrl p fragmentId)
                             Transport.RtJson])%list |}.
Proof.
  intros H. unfold Backend.primaryPath. unfold bind at 1.
  fold (fragmentMergeUrl p fragmentId). unfold requestJson.
  rewrite H. reflexivity.
Qed.

(** X8: a [.merge] document of the fragment that cannot be iterated (an
    object, a number, a boolean, [null]) makes the resolver throw a
    [TypeError] before any leaf is requested; the fragment download
    catches it and ends as the single-leaf fallback does. *)
Theorem non_iterable_document_falls_back
    (fuel : nat) (p : parameters) (chunk : Chunk) (fragmentId : string)
    (s : St) (doc : json) (w1 : World) (r : result ArrayBuffer) (w2 : World) :
  serveJson (world s) (fragmentMergeUrl p fragmentId) = (inr doc, w1) →
  iterate doc = None →
  serveArrayBuffer w1 (fragmentLeafUrl p fragmentId) = (r, w2) →
  downloadFragment fuel p chunk fragmentId s
  = lift (rbind r (decodeFragmentChunk chunk))
      {| world := w2;
         log := (log s ++ [Request (fragmentMergeUrl p fragmentId)
                             Transport.RtJson;
                           ConsoleLog (LogExn (TypeError "keys is not iterable"));
                           Request (fragmentLeafUrl p fragmentId)
                             Transport.RtArrayBuffer])%list |}.
Proof.
  intros Hj Hk Hl.
  assert (Hp : primaryPath fuel p chunk fragmentId s
    = (Rejected (TypeError "keys is not iterable"),
       {| world := w1;
          log := (log s ++ [Request (fragmentMergeUrl p fragmentId)
                              Transport.RtJson])%list |})).
  { rewrite (primaryPath_with_document _ _ _ _ _ _ _ Hj). unfold bind.
    rewrite (downloadMergeFragment_not_iterable _ _ _ _ _ _ _ Hk).
    reflexivity. }
  rewrite (downloadFragment_catches _ _ _ _ _ _ _ _ _ _ _ _ Hp).
  rewrite (fallbackPath_run serveArrayBuffer
             decodeTriangleVertexPositionsAndIndices assignMeshFragmentData
             p chunk fragmentId _
             {| world := w1;
                log := (log s ++ [Request (fragmentMergeUrl p fragmentId)
                                    Transport.RtJson])%list |}
             r w2 Hl).
  simpl. rewrite <- app_assoc. reflexivity.
Qed.

(** X9: an empty [.merge] document makes the primary path decode zero
    leaves without requesting any: if the merged decoder accepts the empty
    list, the fragment download resolves after this one request and the
    leaf of the fragment itself is never fetched; only if the decoder
    rejects it does the fallback run. *)
Theorem empty_document_fetches_no_leaf
    (fuel : nat) (p : parameters) (chunk : Chunk) (fragmentId : string)
    (s : St) (doc : json) (w1 : World) :
  serveJson (world s) (fragmentMergeUrl p fragmentId) = (inr doc, w1) →
  iterate doc = Some [] →
  let s1 := {| world := w1;
               log := (log s ++ [Request (fragmentMergeUrl p fragmentId)
                                   Transport.RtJson])%list |} in
  downloadFragment (S fuel) p chunk fragmentId s
  = match rbind (decodeTriangleVertexPositionsAndIndicesM [] LITTLE 4 [])
                (assignMeshFragmentData chunk) with
    | inr c => (Resolved c, s1)
    | inl e => fallbackPath p chunk fragmentId e s1
    end.
Proof.
  intros Hj Hk s1. unfold Backend.downloadFragment, catch_.
  rewrite (primaryPath_with_document _ _ _ _ _ _ _ Hj). unfold bind.
  simpl downloadMergeFragment. rewrite Hk. simpl.
  unfold decodeFragmentChunkM. simpl.
  destruct (rbind (decodeTriangleVertexPositionsAndIndicesM [] LITTLE 4 [])
              (assignMeshFragmentData chunk)); reflexivity.
Qed.

End FragmentMore.

Section DecodeMore.
Import Backend.

Lemma word32_big (b0 b1 b2 b3 : byte) :
  Z.lor (Z.lor (Z.lor (byteZ b3) (Z.shiftl (byteZ b2) 8))
               (Z.shiftl (byteZ b1) 16))
        (Z.shiftl (byteZ b0) 24)
  = word32 BIG b0 b1 b2 b3.
Proof.
  pose proof (byteZ_range b0). pose proof (byteZ_range b1).
  pose proof (byteZ_range b2). pose proof (byteZ_range b3).
  unfold word32.
  rewrite (lor_shiftl (byteZ b3) (byteZ b2) 8) by lia.
  rewrite (lor_shiftl _ (byteZ b1) 16) by lia.
  rewrite (lor_shiftl _ (byteZ b0) 24) by lia.
  lia.
Qed.

Lemma word32_little (b0 b1 b2 b3 : byte) :
  Z.lor (Z.lor (Z.lor (byteZ b0) (Z.shiftl (byteZ b1) 8))
               (Z.shiftl (byteZ b2) 16))
        (Z.shiftl (byteZ b3) 24)
  = word32 LITTLE b0 b1 b2 b3.
Proof.
  pose proof (byteZ_range b0). pose proof (byteZ_range b1).
  pose proof (byteZ_range b2). pose proof (byteZ_range b3).
  unfold word32.
  rewrite (lor_shiftl (byteZ b0) (byteZ b1) 8) by lia.
  rewrite (lor_shiftl _ (byteZ b2) 16) by lia.
  rewrite (lor_shiftl _ (byteZ b3) 24) by lia.
  lia.
Qed.

(** X10: [getUint32] fails with a [RangeError] exactly when fewer than
    four bytes lie at the offset; otherwise it yields the unsigned value
    of the four bytes found there, read in the byte order asked for, which
    lies in [[0, 2^32)]. *)
Theorem getUint32_bounds
    (buf : ArrayBuffer) (byteOffset : nat) (littleEndian : bool) :
  ((length buf < byteOffset + 4)%nat →
   getUint32 buf byteOffset littleEndian
   = inl (RangeError "Offset is outside the bounds of the DataView"))
  ∧ ((byteOffset + 4 ≤ length buf)%nat →
     ∃ b0 b1 b2 b3,
       buf !! byteOffset = Some b0
       ∧ buf !! (byteOffset + 1)%nat = Some b1
       ∧ buf !! (byteOffset + 2)%nat = Some b2
       ∧ buf !! (byteOffset + 3)%nat = Some b3
       ∧ getUint32 buf byteOffset littleEndian
         = inr (word32 (if littleEndian then LITTLE else BIG) b0 b1 b2 b3)
       ∧ 0 ≤ word32 (if littleEndian then LITTLE else BIG) b0 b1 b2 b3
         < 2 ^ 32).
Proof.
  unfold getUint32. split; intros Hlen.
  - pose proof (length_drop buf byteOffset) as Hd.
    destruct (drop byteOffset buf) as [| b0 [| b1 [| b2 [| b3 rest]]]];
      simpl in Hd; try reflexivity; lia.
  - pose proof (length_drop buf byteOffset) as Hd.
    assert (Hl : ∀ i, drop byteOffset buf !! i = buf !! (byteOffset + i)%nat)
      by (intros i; apply lookup_drop).
    destruct (drop byteOffset buf) as [| b0 [| b1 [| b2 [| b3 rest]]]];
      simpl in Hd; try lia.
    exists b0, b1, b2, b3.
    pose proof (Hl 0%nat) as H0. pose proof (Hl 1%nat) as H1.
    pose proof (Hl 2%nat) as H2. pose proof (Hl 3%nat) as H3.
    simpl in H0, H1, H2, H3. rewrite Nat.add_0_r in H0.
    split_and!; try congruence.
    + destruct littleEndian; f_equal;
        [apply word32_little | apply word32_big].
    + apply word32_range.
    + apply word32_range.
Qed.

Context {MeshData Chunk : Type}.
Variable decodeTriangleVertexPositionsAndIndicesM :
  list ArrayBuffer → Endianness → Z → list Z → result MeshData.
Variable assignMeshFragmentData : Chunk → MeshData → result Chunk.

Lemma headers_short (responses : list ArrayBuffer) :
  Exists (λ response, vertexCountOf response = None) responses →
  rmapM (λ response, getUint32 response 0 true) responses
  = inl (RangeError "Offset is outside the bounds of the DataView").
Proof.
  induction responses as [| response responses IH]; intros H.
  - inversion H.
  - simpl. rewrite getUint32_header.
    destruct (vertexCountOf response) as [n |] eqn:Hn; simpl.
    + rewrite IH; [reflexivity |].
      inversion H as [? ? Hh | ? ? Ht]; subst; [congruence | exact Ht].
    + reflexivity.
Qed.

(** X11: if any of the leaves handed to [decodeFragmentChunkM] is shorter
    than four bytes, the merged decode throws the [RangeError] of the
    header read, whatever the other leaves hold, and the parser of the
    mesh backend is never consulted. *)
Theorem short_leaf_is_range_error
    (chunk : Chunk) (responses : list ArrayBuffer) :
  Exists (λ response, (length response < 4)%nat) responses →
  decodeFragmentChunkM decodeTriangleVertexPositionsAndIndicesM
    assignMeshFragmentData chunk responses
  = inl (RangeError "Offset is outside the bounds of the DataView").
Proof.
  intros H. unfold decodeFragmentChunkM.
  rewrite headers_short; [reflexivity |].
  eapply Exists_impl; [exact H |].
  intros response Hl. unfold vertexCountOf.
  destruct response as [| b0 [| b1 [| b2 [| b3 rest]]]]; simpl in Hl;
    try reflexivity; lia.
Qed.

End DecodeMore.

Section UrlFacts.
Import Json Backend Logs Api.

(** X12: the URLs that backend.ts assembles by hand for the mesh and
    skeleton sources are the key-value URLs of [DVIDInstance]: the leaf
    and the [.merge] document of a fragment or of a key, and the skeleton
    of a body, are [getKeyValueUrl] of the data instance at the keys
    [<id>.ngmesh], [<id>.merge] and [<id>_swc]. *)
Theorem mesh_urls_are_key_value_urls
    (p : parameters) (fragmentId : string) (key : json) :
  fragmentLeafUrl p fragmentId
    = getKeyValueUrl (instanceOf p) (dataInstanceKey p) (fragmentId ++ ".ngmesh")
  ∧ fragmentMergeUrl p fragmentId
    = getKeyValueUrl (instanceOf p) (dataInstanceKey p) (fragmentId ++ ".merge")
  ∧ leafUrl (keyBaseUrlOf p) key
    = getKeyValueUrl (instanceOf p) (dataInstanceKey p) (String_ key ++ ".ngmesh")
  ∧ mergeUrl (keyBaseUrlOf p) key
    = getKeyValueUrl (instanceOf p) (dataInstanceKey p) (String_ key ++ ".merge")
  ∧ skeletonUrl p fragmentId
    = getKeyValueUrl (instanceOf p) (dataInstanceKey p) (fragmentId ++ "_swc").
Proof.
  unfold fragmentLeafUrl, fragmentMergeUrl, leafUrl, mergeUrl, skeletonUrl,
    keyBaseUrlOf, getKeyValueUrl, getNodeApiUrl, instanceOf. simpl.
  rewrite append_nil_r.
  split_and!; rewrite ?append_assoc; reflexivity.
Qed.

End UrlFacts.

(* ================================================================== *)
(** * Properties of the annotation code of backend.ts *)

Section AnnotationFacts.
Import Json Backend Annotations.

(** X13: the two type translations undo each other except on the names
    they produce: [DVIDToAnnotationType] after [annotationToDVIDType]
    gives the type back unless it is ['Split'] or ['Merge'], and
    [annotationToDVIDType] after [DVIDToAnnotationType] gives it back
    unless it is ['False Merge'] or ['False Split']; on those four names
    the round trip changes the type. *)
Theorem annotation_type_round_trip (t : string) :
  (t ≠ "Split" → t ≠ "Merge" →
   DVIDToAnnotationType (annotationToDVIDType t) = t)
  ∧ (t ≠ "False Merge" → t ≠ "False Split" →
     annotationToDVIDType (DVIDToAnnotationType t) = t)
  ∧ DVIDToAnnotationType (annotationToDVIDType "Split") = "False Merge"
  ∧ DVIDToAnnotationType (annotationToDVIDType "Merge") = "False Split"
  ∧ annotationToDVIDType (DVIDToAnnotationType "False Merge") = "Split"
  ∧ annotationToDVIDType (DVIDToAnnotationType "False Split") = "Merge".
Proof.
  split_and!; try reflexivity.
  - intros H1 H2. unfold annotationToDVIDType.
    destruct (String.eqb_spec t "False Merge") as [-> | ?]; [reflexivity |].
    destruct (String.eqb_spec t "False Split") as [-> | ?]; [reflexivity |].
    unfold DVIDToAnnotationType.
    destruct (String.eqb_spec t "Split"); [contradiction |].
    destruct (String.eqb_spec t "Merge"); [contradiction |]. reflexivity.
  - intros H1 H2. unfold DVIDToAnnotationType.
    destruct (String.eqb_spec t "Split") as [-> | ?]; [reflexivity |].
    destruct (String.eqb_spec t "Merge") as [-> | ?]; [reflexivity |].
    unfold annotationToDVIDType.
    destruct (String.eqb_spec t "False Merge"); [contradiction |].
    destruct (String.eqb_spec t "False Split"); [contradiction |]. reflexivity.
Qed.

Lemma annotationToDVIDType_nonempty (t : string) :
  t ≠ "" → annotationToDVIDType t ≠ "".
Proof.
  intros H. unfold annotationToDVIDType.
  destruct (String.eqb t "False Merge"); [discriminate |].
  destruct (String.eqb t "False Split"); [discriminate | exact H].
Qed.

Lemma removeIfEmpty_lookup (obj : gmap string string) (key k : string) :
  removeIfEmpty obj key !! k
  = if decide (k = key ∧ obj !! k = Some "") then None else obj !! k.
Proof.
  unfold removeIfEmpty.
  destruct (decide (k = key ∧ obj !! k = Some "")) as [[-> He] | Hn].
  - rewrite He. simpl. apply lookup_delete_eq.
  - destruct (obj !! key) as [v |] eqn:Hv; [| reflexivity].
    destruct (String.eqb_spec v "") as [-> | Hne]; [| reflexivity].
    apply lookup_delete_ne. intros <-. apply Hn. auto.
Qed.

Lemma fold_removeIfEmpty_lookup (keys : list string) :
  ∀ (obj : gmap string string) (k : string),
    fold_left removeIfEmpty keys obj !! k
    = if decide (k ∈ keys ∧ obj !! k = Some "") then None else obj !! k.
Proof.
  induction keys as [| key keys IH]; intros obj k; simpl.
  - destruct (decide (k ∈ [] ∧ obj !! k = Some "")) as [[H _] | _];
      [inversion H | reflexivity].
  - rewrite IH, removeIfEmpty_lookup.
    destruct (decide (k = key ∧ obj !! k = Some "")) as [[-> He] | Hn].
    + destruct (decide (key ∈ keys ∧ None = Some "")) as [[_ H] | _];
        [discriminate |].
      destruct (decide (key ∈ key :: keys ∧ obj !! key = Some ""))
        as [_ | H]; [reflexivity |].
      exfalso. apply H. split; [left | exact He].
    + destruct (decide (k ∈ keys ∧ obj !! k = Some "")) as [[Hi He] | Hn'];
        destruct (decide (k ∈ key :: keys ∧ obj !! k = Some ""))
          as [[Hi' He'] | Hn'']; try reflexivity.
      * exfalso. apply Hn''. split; [right; exact Hi | exact He].
      * exfalso. apply elem_of_cons in Hi' as [-> | Hi']; tauto.
Qed.

Lemma removeEmptyField_lookup (obj : gmap string string) (k v : string) :
  removeEmptyField obj !! k = Some v ↔ obj !! k = Some v ∧ v ≠ "".
Proof.
  unfold removeEmptyField. rewrite fold_removeIfEmpty_lookup.
  destruct (decide (k ∈ (map_to_list obj).*1 ∧ obj !! k = Some ""))
    as [[Hi He] | Hn].
  - split; [discriminate |]. intros [H Hv]. congruence.
  - split.
    + intros H. split; [exact H |]. intros ->. apply Hn. split; [| exact H].
      apply list_elem_of_fmap. exists (k, ""). split; [reflexivity |].
      apply elem_of_map_to_list, H.
    + intros [H _]. exact H.
Qed.

(** X14: [removeEmptyField] deletes exactly the properties whose value
    is the empty string: a property is present afterwards if and only if
    it was present with a non-empty value, which it keeps; running it a
    second time changes nothing. *)
Theorem removeEmptyField_removes_empty_values (obj : gmap string string) :
  (∀ k v, removeEmptyField obj !! k = Some v ↔ obj !! k = Some v ∧ v ≠ "")
  ∧ (∀ k, obj !! k = Some "" → removeEmptyField obj !! k = None)
  ∧ removeEmptyField (removeEmptyField obj) = removeEmptyField obj.
Proof.
  split_and!.
  - apply removeEmptyField_lookup.
  - intros k H. destruct (removeEmptyField obj !! k) as [v |] eqn:E;
      [| reflexivity].
    apply removeEmptyField_lookup in E as [E Hv]. congruence.
  - apply map_eq. intros k.
    destruct (removeEmptyField obj !! k) as [v |] eqn:E.
    + apply removeEmptyField_lookup. split; [exact E |].
      apply removeEmptyField_lookup in E. tauto.
    + destruct (removeEmptyField (removeEmptyField obj) !! k) as [v |] eqn:E';
        [| reflexivity].
      apply removeEmptyField_lookup in E' as [E' _]. congruence.
Qed.

Section Note.
Context {Num : Type}.

Lemma filled_delete (m : gmap string string) (k : string) :
  filled m → filled (delete k m).
Proof.
  intros H k' v Hl. apply lookup_delete_Some in Hl as [_ Hl]. eauto.
Qed.

Lemma filled_insert (m : gmap string string) (k x : string) :
  filled m → (k = "body ID" ∨ x ≠ "") → filled (<[k := x]> m).
Proof.
  intros H Hx k' v Hl Hk. apply lookup_insert_Some in Hl as [[<- <-] | [_ Hl]].
  - destruct Hx; congruence.
  - eauto.
Qed.

Lemma truthy_nonempty (u : option string) :
  Api.truthy u = true → ∃ s, u = Some s ∧ s ≠ "".
Proof.
  destruct u as [[| c s] |]; simpl; try discriminate.
  intros _. eexists. split; [reflexivity | discriminate].
Qed.

Lemma annotationToDVID_Prop (a : PointView Num) (user : option string) :
  Prop_ (annotationToDVID a user)
  = if Api.truthy user then <["user" := default "" user]> (propBeforeUser a)
    else propBeforeUser a.
Proof.
  unfold annotationToDVID, propBeforeUser.
  destruct (point a) as [[p0 p1] p2]. destruct (Api.truthy user); reflexivity.
Qed.

Lemma annotationToDVID_Tags (a : PointView Num) (user : option string) :
  Tags (annotationToDVID a user)
  = if Api.truthy user then Some ["user:" ++ default "" user] else None.
Proof.
  unfold annotationToDVID.
  destruct (point a) as [[p0 p1] p2]. destruct (Api.truthy user); reflexivity.
Qed.

Lemma propBeforeUser_filled (a : PointView Num) : filled (propBeforeUser a).
Proof.
  unfold propBeforeUser.
  set (prop1 := if Api.truthy (bookmarkType a) then _ else _).
  assert (H2 : filled (removeEmptyField prop1)).
  { intros k v Hl _. apply removeEmptyField_lookup in Hl. tauto. }
  set (prop3 := if bool_decide _ then _ else _).
  assert (H3 : filled prop3).
  { unfold prop3. destruct (bool_decide _); [| exact H2].
    destruct (negb (checked a)); [apply filled_delete, H2 | exact H2]. }
  destruct (objectLabels a) as [[| label labels] |]; try exact H3.
  apply filled_insert; auto.
Qed.

Lemma propBeforeUser_checked (a : PointView Num) (v : string) :
  propBeforeUser a !! "checked" = Some v → checked a = true.
Proof.
  unfold propBeforeUser.
  set (prop2 := removeEmptyField _).
  set (prop3 := if bool_decide _ then _ else _).
  assert (H3 : prop3 !! "checked" = Some v → checked a = true).
  { unfold prop3. destruct (bool_decide_reflect (is_Some (prop2 !! "checked")))
      as [Hs | Hs].
    - destruct (checked a); [reflexivity |]. simpl.
      rewrite lookup_delete_eq. discriminate.
    - intros H. exfalso. apply Hs. eauto. }
  destruct (objectLabels a) as [[| label labels] |]; try exact H3.
  rewrite lookup_insert_ne by discriminate. exact H3.
Qed.

Lemma propBeforeUser_type (a : PointView Num) (t : string) :
  bookmarkType a = Some t → t ≠ "" →
  propBeforeUser a !! "type" = Some (annotationToDVIDType t).
Proof.
  intros Hb Ht. unfold propBeforeUser. rewrite Hb.
  assert (Hy : Api.truthy (Some t) = true)
    by (destruct t; [congruence | reflexivity]).
  rewrite Hy. simpl default.
  set (prop2 := removeEmptyField _).
  assert (H2 : prop2 !! "type" = Some (annotationToDVIDType t)).
  { apply removeEmptyField_lookup. split; [apply lookup_insert_eq |].
    apply annotationToDVIDType_nonempty, Ht. }
  set (prop3 := if bool_decide _ then _ else _).
  assert (H3 : prop3 !! "type" = Some (annotationToDVIDType t)).
  { unfold prop3. destruct (bool_decide _); [| exact H2].
    destruct (negb (checked a)); [| exact H2].
    rewrite lookup_delete_ne by discriminate. exact H2. }
  destruct (objectLabels a) as [[| label labels] |]; try exact H3.
  rewrite lookup_insert_ne by discriminate. exact H3.
Qed.

(** X15: in the note [annotationToDVID] builds, no property other than
    ['body ID'] has the empty string as its value; ['checked'] is present
    only when the annotation is checked; and a user that is given and not
    empty is written both as the property ['user'] and as the single tag
    ['user:<user>'], while without one the note has no tags. *)
Theorem annotationToDVID_prop_invariants
    (a : PointView Num) (user : option string) :
  (∀ k v, Prop_ (annotationToDVID a user) !! k = Some v →
          k ≠ "body ID" → v ≠ "")
  ∧ (∀ v, Prop_ (annotationToDVID a user) !! "checked" = Some v →
          checked a = true)
  ∧ (∀ u, user = Some u → u ≠ "" →
       Prop_ (annotationToDVID a user) !! "user" = Some u
       ∧ Tags (annotationToDVID a user) = Some ["user:" ++ u])
  ∧ (Api.truthy user = false → Tags (annotationToDVID a user) = None).
Proof.
  rewrite annotationToDVID_Prop, annotationToDVID_Tags.
  pose proof (propBeforeUser_filled a) as Hf.
  split_and!.
  - destruct (Api.truthy user) eqn:Hu; [| exact Hf].
    apply truthy_nonempty in Hu as (s & -> & Hs).
    apply filled_insert; auto.
  - intros v. destruct (Api.truthy user).
    + rewrite lookup_insert_ne by discriminate. apply propBeforeUser_checked.
    + apply propBeforeUser_checked.
  - intros u -> Hu.
    assert (Hy : Api.truthy (Some u) = true)
      by (destruct u; [congruence | reflexivity]).
    rewrite Hy. simpl. split; [apply lookup_insert_eq | reflexivity].
  - intros ->. reflexivity.
Qed.

(** X16: the bookmark type of an annotation survives the trip to DVID
    and back: [annotationToDVID] stores [annotationToDVIDType] of it under
    ['type'], untouched by the later steps, and [DVIDToAnnotationType]
    (what [parseAnnotation] applies to that property) recovers it, unless
    the type is ['Split'] or ['Merge']. *)
Theorem annotationToDVID_type_round_trip
    (a : PointView Num) (user : option string) (t : string) :
  bookmarkType a = Some t → t ≠ "" →
  Prop_ (annotationToDVID a user) !! "type" = Some (annotationToDVIDType t)
  ∧ (t ≠ "Split" → t ≠ "Merge" →
     DVIDToAnnotationType <$> Prop_ (annotationToDVID a user) !! "type"
     = Some t).
Proof.
  intros Hb Ht.
  assert (H : Prop_ (annotationToDVID a user) !! "type"
              = Some (annotationToDVIDType t)).
  { rewrite annotationToDVID_Prop. destruct (Api.truthy user).
    - rewrite lookup_insert_ne by discriminate.
      apply propBeforeUser_type; assumption.
    - apply propBeforeUser_type; assumption. }
  split; [exact H |]. intros H1 H2. rewrite H. simpl. f_equal.
  unfold annotationToDVIDType.
  destruct (String.eqb_spec t "False Merge") as [-> | ?]; [reflexivity |].
  destruct (String.eqb_spec t "False Split") as [-> | ?]; [reflexivity |].
  unfold DVIDToAnnotationType.
  destruct (String.eqb_spec t "Split"); [contradiction |].
  destruct (String.eqb_spec t "Merge"); [contradiction |]. reflexivity.
Qed.

End Note.
End AnnotationFacts.

Section MetadataFacts.
Import Json Backend Annotations.
Context {World Annotation : Type}.
Variable serveJson : World → string → result json * World.
Variable parseAnnotation : json → result (option Annotation).

#[local] Abbreviation St := (@St World).
#[local] Abbreviation downloadMetadata :=
  (downloadMetadata serveJson parseAnnotation).

Lemma downloadMetadata_served
    (p : parameters) (id : string) (s : St) (doc : json) (w : World) :
  serveJson (world s) (annotationUrl p id) = (inr doc, w) →
  downloadMetadata p id s
  = match lengthOf doc with
    | inl e => throw e
    | inr (Some (S _)) => lift (parseAnnotation (first doc))
    | inr _ => ret None
    end {| world := w;
           log := (log s ++ [Request (annotationUrl p id)
                               Transport.RtJson])%list |}.
Proof.
  intros H. unfold Annotations.downloadMetadata, then2, requestJson.
  rewrite H. simpl. unfold bind.
  destruct (lengthOf doc) as [e | [[| n] |]]; reflexivity.
Qed.

(** X17: [downloadMetadata] swallows a failed request: whatever the
    error (a 404, a cancellation), the call resolves and leaves [null] as
    the annotation of the chunk.  The second handler of [then] does not
    see what the first one throws, so the call can still reject, but only
    after the server has answered: because the body is [null], or with the
    error [parseAnnotation] throws on the first entry.  An answer of
    length zero, or without a length, leaves [null]. *)
Theorem downloadMetadata_swallows_request_failure
    (p : parameters) (id : string) (s : St) :
  (∀ e w,
     serveJson (world s) (annotationUrl p id) = (inl e, w) →
     downloadMetadata p id s
     = (Resolved None,
        {| world := w;
           log := (log s ++ [Request (annotationUrl p id)
                               Transport.RtJson])%list |}))
  ∧ (∀ e s',
       downloadMetadata p id s = (Rejected e, s') →
       ∃ doc w,
         serveJson (world s) (annotationUrl p id) = (inr doc, w)
         ∧ (doc = JNull ∨ parseAnnotation (first doc) = inl e))
  ∧ (∀ doc w,
       serveJson (world s) (annotationUrl p id) = (inr doc, w) →
       lengthOf doc = inr (Some O) ∨ lengthOf doc = inr None →
       fst (downloadMetadata p id s) = Resolved None).
Proof.
  split_and!.
  - intros e w H. unfold Annotations.downloadMetadata, then2, requestJson.
    rewrite H. reflexivity.
  - intros e s' H.
    destruct (serveJson (world s) (annotationUrl p id)) as [[e0 | doc] w] eqn:Hj.
    + unfold Annotations.downloadMetadata, then2, requestJson in H.
      rewrite Hj in H. discriminate.
    + exists doc, w. split; [reflexivity |].
      rewrite (downloadMetadata_served _ _ _ _ _ Hj) in H.
      destruct doc as [| b | n | str | xs |]; simpl in H.
      * left. reflexivity.
      * discriminate.
      * discriminate.
      * destruct str as [| c str]; simpl in H; [discriminate |].
        right. simpl.
        destruct (parseAnnotation (JStr (String c ""))); [| discriminate].
        injection H as <- _. reflexivity.
      * destruct xs as [| x xs]; simpl in H; [discriminate |].
        right. simpl.
        destruct (parseAnnotation x); [| discriminate].
        injection H as <- _. reflexivity.
      * discriminate.
  - intros doc w Hj Hl. rewrite (downloadMetadata_served _ _ _ _ _ Hj).
    destruct Hl as [-> | ->]; reflexivity.
Qed.

End MetadataFacts.

Section UpdateUrl.
Import Json Backend Annotations Api Logs.

(** X18: as long as the URL of the elements of a data instance holds no
    question mark, the URL [DVIDAnnotationSource.update] assembles by hand
    is the one [appendQueryStringForDvid] gives for it and the user. *)
Theorem update_url_is_appended_query (p : parameters) (user : option string) :
  includes "?" (getNodeApiUrl (instanceOf p)
                  ("/" ++ dataInstanceKey p ++ "/elements")) = false →
  updateUrl p user
  = appendQueryStringForDvid
      (getNodeApiUrl (instanceOf p) ("/" ++ dataInstanceKey p ++ "/elements"))
      user.
Proof.
  intros H. unfold updateUrl, appendQueryStringForDvid.
  fold (instanceOf p). rewrite H.
  destruct (truthy user); rewrite ?append_nil_r, ?append_assoc; reflexivity.
Qed.

End UpdateUrl.

(* ================================================================== *)
(** * Properties of clio/utils.ts *)

Section ClioFacts.
Import Clio.

Lemma split_length (sep : Ascii.ascii) (s : string) :
  length (split sep s) = S (occurrences sep s).
Proof.
  induction s as [| c s IH]; simpl; [reflexivity |].
  destruct (Ascii.eqb c sep); simpl; [rewrite IH; reflexivity |].
  destruct (split sep s) as [| part parts]; simpl in *; [discriminate | exact IH].
Qed.

Context {Num : Type}.
Variable toNumber : string → Num.

Lemma three_parts (parts : list string) :
  is_Some (match List.map toNumber parts with
           | [x; y; z] => Some (x, y, z)
           | _ => None
           end)
  ↔ length parts = 3%nat.
Proof.
  destruct parts as [| a [| b [| c [| d l]]]]; simpl;
    (split; [intros [? H]; try discriminate; reflexivity
            | intros H; try discriminate; eauto]).
Qed.

(** X19: [getPositionFromKey] yields a position exactly for the non-empty
    keys with two underscores, that is, three parts; the parts need not
    be numerals, and its three components are [+part] of the parts in
    order.  Every other key gives [null]. *)
Theorem getPositionFromKey_three_parts (key : string) :
  (is_Some (getPositionFromKey toNumber key)
   ↔ key ≠ "" ∧ occurrences underscore key = 2%nat)
  ∧ (∀ x y z,
       getPositionFromKey toNumber key = Some (x, y, z) →
       ∃ a b c, split underscore key = [a; b; c]
                ∧ x = toNumber a ∧ y = toNumber b ∧ z = toNumber c).
Proof.
  unfold getPositionFromKey. pose proof (split_length underscore key) as Hl.
  split.
  - destruct key as [| ch key].
    + simpl. split; [intros [? ?]; discriminate | intros [? _]; congruence].
    + change ((0 <? String.length (String ch key))%nat) with true. cbv iota.
      rewrite three_parts, Hl.
      split; [intros H; split; [discriminate | lia] | intros [_ H]; lia].
  - intros x y z H.
    destruct (0 <? String.length key)%nat; [| discriminate].
    destruct (split underscore key) as [| a [| b [| c [| d l]]]]; simpl in H;
      try discriminate.
    injection H as <- <- <-. eauto 10.
Qed.

End ClioFacts.

Section ClioEncodeFacts.
Import Clio.
Context {Num : Type}.

(** X20: what [V1PointAnnotationRequestHelper.encode] sends as [Prop] is
    the [prop] of the annotation without ['comment'], ['user'] and
    ['title']: these three are never present, and every other property is
    there with the value it had. *)
Theorem encodeV1_strips_reserved_properties
    (annotation : ClioAnnotation Num) (presentation : option string)
    (p : gmap string string) :
  cprop annotation = Some p →
  ∃ q,
    v1_Prop (encodeV1 annotation presentation) = Some q
    ∧ q !! "comment" = None ∧ q !! "user" = None ∧ q !! "title" = None
    ∧ (∀ k, k ≠ "comment" → k ≠ "user" → k ≠ "title" → q !! k = p !! k).
Proof.
  intros H. unfold encodeV1. simpl. rewrite H. eexists. split; [reflexivity |].
  split_and!.
  - rewrite !lookup_delete_ne by discriminate. apply lookup_delete_eq.
  - rewrite lookup_delete_ne by discriminate. apply lookup_delete_eq.
  - apply lookup_delete_eq.
  - intros k H1 H2 H3. rewrite !lookup_delete_ne by congruence. reflexivity.
Qed.

(** X21: of the helpers [makeEncoders] can return, only the one for API
    ['v2'] and kind ['Atlas'] ever refuses an upload: it accepts exactly
    the annotations (not the plain strings) whose title is a non-empty
    string; for every other API and kind everything is uploadable. *)
Theorem only_atlas_refuses_uploads
    (api kind : option string) (a : ClioAnnotation Num + string) :
  (api = Some "v2" → kind = Some "Atlas" →
   (uploadable (makeEncoders api kind) a = true
    ↔ ∃ annotation t, a = inl annotation ∧ title annotation = Some t ∧ t ≠ ""))
  ∧ (¬ (api = Some "v2" ∧ kind = Some "Atlas") →
     uploadable (makeEncoders api kind) a = true).
Proof.
  unfold makeEncoders. split.
  - intros -> ->. simpl. destruct a as [annotation | str].
    + destruct (title annotation) as [t |] eqn:Ht.
      * destruct t as [| c t]; simpl.
        -- split; [discriminate |].
           intros (x & t' & Hx & Ht' & Hne). injection Hx as <-. congruence.
        -- split; [| reflexivity]. intros _.
           exists annotation, (String c t).
           split_and!; [reflexivity | exact Ht | discriminate].
      * split; [discriminate |].
        intros (x & t' & Hx & Ht' & _). injection Hx as <-. congruence.
    + split; [discriminate | intros (x & t' & Hx & _); discriminate].
  - intros Hn. destruct (bool_decide_reflect (api = Some "v2")); [| reflexivity].
    destruct (bool_decide_reflect (kind = Some "Atlas")); [tauto | reflexivity].
Qed.

End ClioEncodeFacts.

(* ================================================================== *)
(** * These properties at work *)

Section MoreInstances.
Import Json Backend Tabled Samples.

Lemma mesh_service_always_credentialed_witness :
  ∃ c,
    Api.fetchMeshDataFromService insecureParams "7" = inr c
    ∧ Transport.authorization
        (Transport.applyCredentials (Transport.url c) "secret"
           (Transport.initOfCall c))
      = Some "Bearer secret".
Proof.
  destruct (mesh_service_always_credentialed insecureParams "7" "secret")
    as (c & Hc & _ & _ & Hb & _).
  exists c. split; [exact Hc |]. apply Hb. discriminate.
Defined.

Lemma applyCredentials_keeps_request_witness :
  Transport.headers
    (Transport.applyCredentials "https://emdata.example.org" "secret" acceptJson)
    ≫= (λ h, h !! "Accept")
  = Some "application/json".
Proof.
  rewrite (proj1 (proj2 (proj2 (applyCredentials_keeps_request
             "https://emdata.example.org" "secret" acceptJson))) "Accept");
    [reflexivity | discriminate].
Defined.

Lemma applyCredentialsReady_drops_headers_witness :
  Transport.headers
    (Api.applyCredentialsReady "https://emdata.example.org" "secret" acceptJson)
    ≫= (λ h, h !! "Accept")
  = None.
Proof.
  apply (proj1 (applyCredentialsReady_drops_headers
                  "https://emdata.example.org" "secret" acceptJson));
    [reflexivity | discriminate].
Defined.

Lemma resolver_compares_keys_by_text_witness :
  downloadMergeFragment serveJson serveArrayBuffer 3 base
    (JArr [JNum 2; JNum 1; JNum 3]) (JStr "1") start
  = downloadMergeFragment serveJson serveArrayBuffer 3 base
      (JArr [JStr "2"; JStr "1"; JStr "3"]) (JNum 1) start.
Proof.
  apply resolver_compares_keys_by_text.
  - repeat constructor.
  - reflexivity.
Defined.

Lemma non_iterable_document_falls_back_witness :
  fst (download serveOddJson serveArrayBuffer 3 "5")
  = Rejected (HttpError 404).
Proof.
  unfold download.
  rewrite (non_iterable_document_falls_back serveOddJson serveArrayBuffer
             MeshBackend.decodeTriangleVertexPositionsAndIndices
             MeshBackend.decodeTriangleVertexPositionsAndIndicesM
             MeshBackend.assignMeshFragmentData
             3 params None "5" start JObj tt (inl (HttpError 404)) tt
             eq_refl eq_refl eq_refl).
  reflexivity.
Defined.

Lemma empty_document_fetches_no_leaf_witness :
  download serveOddJson serveArrayBuffer 3 "6"
  = (Resolved (Some (MeshBackend.mkMesh [] [])), afterMerge "6").
Proof.
  unfold download.
  rewrite (empty_document_fetches_no_leaf serveOddJson serveArrayBuffer
             MeshBackend.decodeTriangleVertexPositionsAndIndices
             MeshBackend.decodeTriangleVertexPositionsAndIndicesM
             MeshBackend.assignMeshFragmentData
             2 params None "6" start (JArr []) tt eq_refl eq_refl).
  reflexivity.
Defined.

Lemma getUint32_bounds_witness :
  getUint32 leafA 0 true = inr 3.
Proof.
  destruct (proj2 (getUint32_bounds leafA 0 true))
    as (b0 & b1 & b2 & b3 & H0 & H1 & H2 & H3 & H & _).
  - simpl. lia.
  - rewrite H. injection H0 as <-. injection H1 as <-.
    injection H2 as <-. injection H3 as <-. reflexivity.
Defined.

Lemma short_leaf_is_range_error_witness :
  MeshBackend.decodeMerged [leafA; ["001"%byte]; leafB]
  = inl (RangeError "Offset is outside the bounds of the DataView").
Proof.
  apply short_leaf_is_range_error.
  apply Exists_cons_tl, Exists_cons_hd. simpl. lia.
Defined.

Lemma annotation_type_round_trip_witness :
  Annotations.DVIDToAnnotationType
    (Annotations.annotationToDVIDType "False Merge") = "False Merge".
Proof.
  apply (proj1 (annotation_type_round_trip "False Merge")); discriminate.
Defined.

Lemma removeEmptyField_removes_empty_values_witness :
  Annotations.removeEmptyField
    (<["comment" := ""]> (<["checked" := "1"]> (∅ : gmap string string)))
    !! "comment" = None.
Proof.
  apply (proj1 (proj2 (removeEmptyField_removes_empty_values _))).
  reflexivity.
Defined.

Lemma annotationToDVID_prop_invariants_witness :
  Annotations.Prop_ (Annotations.annotationToDVID bookmark (Some "ada")) !! "user"
  = Some "ada"
  ∧ Annotations.Tags (Annotations.annotationToDVID bookmark (Some "ada"))
    = Some ["user:ada"].
Proof.
  apply (proj1 (proj2 (proj2 (annotationToDVID_prop_invariants
                                bookmark (Some "ada")))) "ada");
    [reflexivity | discriminate].
Defined.

Lemma annotationToDVID_type_round_trip_witness :
  Annotations.DVIDToAnnotationType
    <$> Annotations.Prop_ (Annotations.annotationToDVID bookmark None) !! "type"
  = Some "False Merge".
Proof.
  apply (proj2 (annotationToDVID_type_round_trip bookmark None "False Merge"
                  eq_refl ltac:(discriminate)));
    discriminate.
Defined.

Lemma downloadMetadata_swallows_request_failure_witness :
  Annotations.downloadMetadata serveNoAnnotation keepEntry params "1_2_3" start
  = (Resolved None,
     {| world := tt;
        log := [Request (Annotations.annotationUrl params "1_2_3")
                  Transport.RtJson] |}).
Proof.
  apply (proj1 (downloadMetadata_swallows_request_failure
                  serveNoAnnotation keepEntry params "1_2_3" start)
           (HttpError 404) tt).
  reflexivity.
Defined.

Lemma update_url_is_appended_query_witness :
  Annotations.updateUrl params (Some "ada")
  = "d/api/node/n/m/elements?app=Neuroglancer&u=ada".
Proof.
  rewrite (update_url_is_appended_query params (Some "ada"));
    [reflexivity | vm_compute; reflexivity].
Defined.

Lemma getPositionFromKey_three_parts_witness :
  is_Some (Clio.getPositionFromKey String.length "10_x_30").
Proof.
  apply (proj1 (getPositionFromKey_three_parts String.length "10_x_30")).
  split; [discriminate | reflexivity].
Defined.

Lemma encodeV1_strips_reserved_properties_witness :
  ∃ q,
    Clio.v1_Prop (Clio.encodeV1 titled None) = Some q
    ∧ q !! "comment" = None
    ∧ q !! "color" = Some "red".
Proof.
  destruct (encodeV1_strips_reserved_properties titled None _ eq_refl)
    as (q & Hq & Hc & _ & _ & Hk).
  exists q. split_and!; [exact Hq | exact Hc |].
  rewrite Hk by discriminate. reflexivity.
Defined.

Lemma only_atlas_refuses_uploads_witness :
  Clio.uploadable (Clio.makeEncoders (Some "v2") (Some "Atlas"))
    (inl titled : Clio.ClioAnnotation Z + string) = true.
Proof.
  apply (proj1 (only_atlas_refuses_uploads (Some "v2") (Some "Atlas")
                  (inl titled)) eq_refl eq_refl).
  exists titled, "soma". split_and!; [reflexivity | reflexivity | discriminate].
Defined.

End MoreInstances.

Section NoLeaf.
Import Json Backend.
Context {World : Type}.
Variable serveJson : World → string → result json * World.
Variable serveArrayBuffer : World → string → result ArrayBuffer * World.

#[local] Abbreviation downloadMergeFragment :=
  (downloadMergeFragment serveJson serveArrayBuffer).

Lemma served_without_leaves :
  (∀ w u, ∃ e w', serveArrayBuffer w u = (inl e, w')) →
  ∀ w base ks master gs w',
    servedAll serveJson serveArrayBuffer w base ks master gs w' →
    flat_map dfs gs = [].
Proof.
  intros Hfail.
  assert (Hr : ∀ w u r w', serveArrayBuffer w u = (r, w') → fetched r = None).
  { intros w u r w' H. destruct (Hfail w u) as (e & w0 & He).
    rewrite He in H. injection H as <- _. reflexivity. }
  apply (servedAll_mut serveJson serveArrayBuffer
           (λ w base key master g w' _, dfs g = [])
           (λ w base ks master gs w' _, flat_map dfs gs = [])).
  - intros w base key master r w' _ Hb. rewrite (Hr _ _ _ _ Hb). reflexivity.
  - intros w base key master doc ks w1 gs w2 _ _ _ _ IH. exact IH.
  - intros w base key master doc w1 r w2 _ _ _ Hb.
    rewrite (Hr _ _ _ _ Hb). reflexivity.
  - intros w base key master e w1 r w2 _ _ Hb.
    rewrite (Hr _ _ _ _ Hb). reflexivity.
  - reflexivity.
  - intros w base key keys master g w1 gs w2 _ Hg _ Hgs. simpl.
    rewrite Hg, Hgs. reflexivity.
Qed.

(** X22: when no leaf can be fetched at all, a resolve call still does
    not reject on that account: if it resolves, it resolves with the empty
    list, and it rejects only for a document that cannot be iterated. *)
Theorem no_leaf_no_data :
  (∀ w u, ∃ e w', serveArrayBuffer w u = (inl e, w')) →
  ∀ fuel base keys master (s : @St World),
    (∀ leaves s',
       downloadMergeFragment fuel base keys master s = (Resolved leaves, s') →
       leaves = [])
    ∧ (∀ e s',
         downloadMergeFragment fuel base keys master s = (Rejected e, s') →
         iterate keys = None).
Proof.
  intros Hfail fuel base keys master s. split.
  - intros leaves s' H.
    destruct (downloadMergeFragment_walked _ _ fuel _ _ _ _ _ _ H)
      as (ks & gs & _ & Hs & ->).
    eapply served_without_leaves; eassumption.
  - intros e s' H.
    apply (downloadMergeFragment_rejects _ _ _ _ _ _ _ _ _ H).
Qed.

End NoLeaf.

Lemma no_leaf_no_data_witness :
  ∃ leaves,
    fst (Backend.downloadMergeFragment Tabled.serveJson Tabled.serveNoLeaf 3
           Tabled.base Tabled.doc1 (Json.JStr "1") Tabled.start)
    = Resolved leaves
    ∧ leaves = [].
Proof.
  eexists. split; [vm_compute; reflexivity |].
  apply (proj1 (no_leaf_no_data Tabled.serveJson Tabled.serveNoLeaf
                  (λ w u, ex_intro _ (HttpError 404)
                            (ex_intro _ tt eq_refl))
                  3%nat Tabled.base Tabled.doc1 (Json.JStr "1") Tabled.start)
           _ (snd (Backend.downloadMergeFragment Tabled.serveJson
                     Tabled.serveNoLeaf 3 Tabled.base Tabled.doc1
                     (Json.JStr "1") Tabled.start))).
  vm_compute. reflexivity.
Defined.
